(** * The Tetris engine of [puzzle_game/tetris.py]

    A shallow embedding of the class [Tetris] (piece catalog, 7-bag
    randomizer, playfield, active-piece controller, scoring) and the
    properties its specification states about it.

    Python integers are unbounded, so they are [Z].  Lists are [list],
    indexed the way Python indexes them (negative indices count from the
    end, an index out of range raises [IndexError]).  Methods mutate
    [self]; they are computations in a state-and-exception monad over
    the record [Tetris].  The two [while] loops take fuel. *)

From Stdlib Require Import ZArith Lia QArith.
From stdpp Require Import base tactics option list numbers.

Local Open Scope Z_scope.

(** ** Outcomes and the method monad *)

Inductive exn : Type := IndexError | KeyError | TypeError.

(** What running a piece of code gives: a value, an uncaught exception,
    or [OutOfFuel] when a [while] loop used up the fuel it was given. *)
Inductive outcome (A : Type) : Type :=
| Ret (a : A)
| Raise (e : exn)
| OutOfFuel.
Arguments Ret {A} a.
Arguments Raise {A} e.
Arguments OutOfFuel {A}.

(** The values a method hands back that the claims look at: [None] (a
    body that ends without [return]) or an integer. *)
Inductive value : Type := VNone | VInt (n : Z).

(** ** Piece catalog *)

(** The keys of [TETROMINOES], in insertion order. *)
Inductive Kind : Type := KI | KO | KT | KS | KZ | KJ | KL.

Global Instance Kind_eq_dec : EqDecision Kind.
Proof. solve_decision. Defined.

Abbreviation cell := (Z * Z)%type.
Abbreviation layout := (list (Z * Z)).

Definition TETROMINOES (k : Kind) : list layout :=
  match k with
  | KI => [ [(0, 1); (1, 1); (2, 1); (3, 1)];
            [(2, 0); (2, 1); (2, 2); (2, 3)];
            [(0, 2); (1, 2); (2, 2); (3, 2)];
            [(1, 0); (1, 1); (1, 2); (1, 3)] ]
  | KO => [ [(1, 0); (2, 0); (1, 1); (2, 1)];
            [(1, 0); (2, 0); (1, 1); (2, 1)];
            [(1, 0); (2, 0); (1, 1); (2, 1)];
            [(1, 0); (2, 0); (1, 1); (2, 1)] ]
  | KT => [ [(1, 0); (0, 1); (1, 1); (2, 1)];
            [(1, 0); (1, 1); (2, 1); (1, 2)];
            [(0, 1); (1, 1); (2, 1); (1, 2)];
            [(1, 0); (0, 1); (1, 1); (1, 2)] ]
  | KS => [ [(1, 0); (2, 0); (0, 1); (1, 1)];
            [(1, 0); (1, 1); (2, 1); (2, 2)];
            [(1, 1); (2, 1); (0, 2); (1, 2)];
            [(0, 0); (0, 1); (1, 1); (1, 2)] ]
  | KZ => [ [(0, 0); (1, 0); (1, 1); (2, 1)];
            [(2, 0); (1, 1); (2, 1); (1, 2)];
            [(0, 1); (1, 1); (1, 2); (2, 2)];
            [(1, 0); (0, 1); (1, 1); (0, 2)] ]
  | KJ => [ [(0, 0); (0, 1); (1, 1); (2, 1)];
            [(1, 0); (2, 0); (1, 1); (1, 2)];
            [(0, 1); (1, 1); (2, 1); (2, 2)];
            [(1, 0); (1, 1); (0, 2); (1, 2)] ]
  | KL => [ [(2, 0); (0, 1); (1, 1); (2, 1)];
            [(1, 0); (1, 1); (1, 2); (2, 2)];
            [(0, 1); (1, 1); (2, 1); (0, 2)];
            [(0, 0); (1, 0); (1, 1); (1, 2)] ]
  end.

(** [list(TETROMINOES.keys())] *)
Definition TETROMINOES_keys : list Kind := [KI; KO; KT; KS; KZ; KJ; KL].

Definition BOARD_WIDTH : Z := 10.
Definition BOARD_HEIGHT : Z := 20.

(** ** Python list operations *)

(** The position a Python index denotes in a list of length [n]. *)
Definition norm_index (n : nat) (i : Z) : option nat :=
  let j := if i <? 0 then i + Z.of_nat n else i in
  if (0 <=? j) && (j <? Z.of_nat n) then Some (Z.to_nat j) else None.

(** [l[i]] *)
Definition getitem {A : Type} (l : list A) (i : Z) : outcome A :=
  match norm_index (length l) i with
  | Some j => match l !! j with Some a => Ret a | None => Raise IndexError end
  | None => Raise IndexError
  end.

(** [l[i] = a] *)
Definition setitem {A : Type} (l : list A) (i : Z) (a : A) : outcome (list A) :=
  match norm_index (length l) i with
  | Some j => Ret (<[j := a]> l)
  | None => Raise IndexError
  end.

(** [del l[i]] *)
Definition delitem {A : Type} (l : list A) (i : Z) : outcome (list A) :=
  match norm_index (length l) i with
  | Some j => Ret (delete j l)
  | None => Raise IndexError
  end.

(** [l.pop()]: the last element and the list without it. *)
Definition pop {A : Type} (l : list A) : outcome (A * list A) :=
  match l !! (length l - 1)%nat with
  | Some a => Ret (a, take (length l - 1)%nat l)
  | None => Raise IndexError
  end.

(** ** Game state *)

Abbreviation row := (list (option Kind)).
Abbreviation grid := (list (list (option Kind))).

(** The attributes of a [Tetris] object.  [current_piece], [current_type]
    and [next_type] are [None] until the constructor's first spawn.
    [shuffles] is not an attribute: it counts the calls made to
    [random.shuffle], which is all of the generator's state that the
    game depends on. *)
Record Tetris : Type := mkTetris {
  board : grid;
  score : Z;
  level : Z;
  lines_cleared : Z;
  game_over : bool;
  paused : bool;
  bag : list Kind;
  current_piece : option layout;
  current_type : option Kind;
  current_rotation : Z;
  current_x : Z;
  current_y : Z;
  next_type : option Kind;
  shuffles : nat
}.

Definition set_board (v : grid) (s : Tetris) : Tetris :=
  mkTetris v (score s) (level s) (lines_cleared s) (game_over s) (paused s)
    (bag s) (current_piece s) (current_type s) (current_rotation s)
    (current_x s) (current_y s) (next_type s) (shuffles s).
Definition set_score (v : Z) (s : Tetris) : Tetris :=
  mkTetris (board s) v (level s) (lines_cleared s) (game_over s) (paused s)
    (bag s) (current_piece s) (current_type s) (current_rotation s)
    (current_x s) (current_y s) (next_type s) (shuffles s).
Definition set_level (v : Z) (s : Tetris) : Tetris :=
  mkTetris (board s) (score s) v (lines_cleared s) (game_over s) (paused s)
    (bag s) (current_piece s) (current_type s) (current_rotation s)
    (current_x s) (current_y s) (next_type s) (shuffles s).
Definition set_lines_cleared (v : Z) (s : Tetris) : Tetris :=
  mkTetris (board s) (score s) (level s) v (game_over s) (paused s)
    (bag s) (current_piece s) (current_type s) (current_rotation s)
    (current_x s) (current_y s) (next_type s) (shuffles s).
Definition set_game_over (v : bool) (s : Tetris) : Tetris :=
  mkTetris (board s) (score s) (level s) (lines_cleared s) v (paused s)
    (bag s) (current_piece s) (current_type s) (current_rotation s)
    (current_x s) (current_y s) (next_type s) (shuffles s).
Definition set_bag (v : list Kind) (s : Tetris) : Tetris :=
  mkTetris (board s) (score s) (level s) (lines_cleared s) (game_over s) (paused s)
    v (current_piece s) (current_type s) (current_rotation s)
    (current_x s) (current_y s) (next_type s) (shuffles s).
Definition set_current_piece (v : option layout) (s : Tetris) : Tetris :=
  mkTetris (board s) (score s) (level s) (lines_cleared s) (game_over s) (paused s)
    (bag s) v (current_type s) (current_rotation s)
    (current_x s) (current_y s) (next_type s) (shuffles s).
Definition set_current_type (v : option Kind) (s : Tetris) : Tetris :=
  mkTetris (board s) (score s) (level s) (lines_cleared s) (game_over s) (paused s)
    (bag s) (current_piece s) v (current_rotation s)
    (current_x s) (current_y s) (next_type s) (shuffles s).
Definition set_current_rotation (v : Z) (s : Tetris) : Tetris :=
  mkTetris (board s) (score s) (level s) (lines_cleared s) (game_over s) (paused s)
    (bag s) (current_piece s) (current_type s) v
    (current_x s) (current_y s) (next_type s) (shuffles s).
Definition set_current_x (v : Z) (s : Tetris) : Tetris :=
  mkTetris (board s) (score s) (level s) (lines_cleared s) (game_over s) (paused s)
    (bag s) (current_piece s) (current_type s) (current_rotation s)
    v (current_y s) (next_type s) (shuffles s).
Definition set_current_y (v : Z) (s : Tetris) : Tetris :=
  mkTetris (board s) (score s) (level s) (lines_cleared s) (game_over s) (paused s)
    (bag s) (current_piece s) (current_type s) (current_rotation s)
    (current_x s) v (next_type s) (shuffles s).
Definition set_next_type (v : option Kind) (s : Tetris) : Tetris :=
  mkTetris (board s) (score s) (level s) (lines_cleared s) (game_over s) (paused s)
    (bag s) (current_piece s) (current_type s) (current_rotation s)
    (current_x s) (current_y s) v (shuffles s).
Definition set_shuffles (v : nat) (s : Tetris) : Tetris :=
  mkTetris (board s) (score s) (level s) (lines_cleared s) (game_over s) (paused s)
    (bag s) (current_piece s) (current_type s) (current_rotation s)
    (current_x s) (current_y s) (next_type s) v.

Definition set_paused (v : bool) (s : Tetris) : Tetris :=
  mkTetris (board s) (score s) (level s) (lines_cleared s) (game_over s) v
    (bag s) (current_piece s) (current_type s) (current_rotation s)
    (current_x s) (current_y s) (next_type s) (shuffles s).

(** ** The monad of methods: state over [Tetris], exceptions, fuel *)

Definition M (A : Type) : Type := Tetris -> outcome (A * Tetris).

Definition ret {A : Type} (a : A) : M A := fun s => Ret (a, s).

Definition bind {A B : Type} (m : M A) (f : A -> M B) : M B :=
  fun s =>
    match m s with
    | Ret (a, s') => f a s'
    | Raise e => Raise e
    | OutOfFuel => OutOfFuel
    end.

Definition raise {A : Type} (e : exn) : M A := fun _ => Raise e.
Definition out_of_fuel {A : Type} : M A := fun _ => OutOfFuel.

(** Read an attribute of [self]. *)
Definition gets {A : Type} (f : Tetris -> A) : M A := fun s => Ret (f s, s).
(** Assign to an attribute of [self]. *)
Definition modify (f : Tetris -> Tetris) : M unit := fun s => Ret (tt, f s).

(** Run code that does not touch [self]. *)
Definition lift {A : Type} (o : outcome A) : M A :=
  fun s =>
    match o with
    | Ret a => Ret (a, s)
    | Raise e => Raise e
    | OutOfFuel => OutOfFuel
    end.

(** Use an attribute that must not be [None]. *)
Definition not_none {A : Type} (e : exn) (o : option A) : M A :=
  match o with
  | Some a => ret a
  | None => raise e
  end.

Notation "'let!' x ':=' m 'in' k" := (bind m (fun x => k))
  (at level 10, x pattern, m at level 100, k at level 200).
Notation "m '>>' k" := (bind m (fun _ => k))
  (at level 62, right associativity).

(** [x is not None] *)
Definition is_not_None {A : Type} (o : option A) : bool :=
  match o with Some _ => true | None => false end.

(** ** Methods of [Tetris] *)

(** [is_valid_position(self, x, y, piece)]: the [for] loop over the
    cells of [piece], leaving at the first cell that does not fit. *)
Fixpoint is_valid_position (x y : Z) (piece : layout) : M bool :=
  match piece with
  | [] => ret true
  | (px, py) :: rest =>
      let new_x := x + px in
      let new_y := y + py in
      if (new_x <? 0) || (new_x >=? BOARD_WIDTH) then ret false
      else if new_y >=? BOARD_HEIGHT then ret false
      else if new_y >=? 0 then
        let! b := gets board in
        let! r := lift (getitem b new_y) in
        let! c := lift (getitem r new_x) in
        if is_not_None c then ret false
        else is_valid_position x y rest
      else is_valid_position x y rest
  end.

(** [move(self, dx, dy)] *)
Definition move (dx dy : Z) : M bool :=
  let! cx := gets current_x in
  let! cy := gets current_y in
  let new_x := cx + dx in
  let new_y := cy + dy in
  let! piece := (let! p := gets current_piece in not_none TypeError p) in
  let! ok := is_valid_position new_x new_y piece in
  if ok then
    modify (set_current_x new_x) >>
    modify (set_current_y new_y) >>
    ret true
  else ret false.

(** [rotate(self)]: the [for] loop over the wall kicks. *)
Fixpoint rotate_kicks (kicks : list (Z * Z)) (new_rotation : Z) (new_piece : layout)
  : M bool :=
  match kicks with
  | [] => ret false
  | (kick_x, kick_y) :: rest =>
      let! cx := gets current_x in
      let! cy := gets current_y in
      let! ok := is_valid_position (cx + kick_x) (cy + kick_y) new_piece in
      if ok then
        modify (fun s => set_current_x (current_x s + kick_x) s) >>
        modify (fun s => set_current_y (current_y s + kick_y) s) >>
        modify (set_current_rotation new_rotation) >>
        modify (set_current_piece (Some new_piece)) >>
        ret true
      else rotate_kicks rest new_rotation new_piece
  end.

Definition kicks : list (Z * Z) := [(-1, 0); (1, 0); (-2, 0); (2, 0); (0, -1)].

(** [rotate(self)].  Python's [%] with a positive modulus is [Z.modulo];
    [TETROMINOES[None]] is a [KeyError]. *)
Definition rotate : M bool :=
  let! r := gets current_rotation in
  let new_rotation := (r + 1) mod 4 in
  let! k := (let! t := gets current_type in not_none KeyError t) in
  let! new_piece := lift (getitem (TETROMINOES k) new_rotation) in
  let! cx := gets current_x in
  let! cy := gets current_y in
  let! ok := is_valid_position cx cy new_piece in
  if ok then
    modify (set_current_rotation new_rotation) >>
    modify (set_current_piece (Some new_piece)) >>
    ret true
  else rotate_kicks kicks new_rotation new_piece.

(** [range(n)] *)
Definition range (n : Z) : list Z := map Z.of_nat (seq 0 (Z.to_nat n)).

(** [all(cell is not None for cell in r)] *)
Definition row_complete (r : row) : bool := forallb is_not_None r.

(** [[None for _ in range(BOARD_WIDTH)]] *)
Definition empty_row : row := replicate (Z.to_nat BOARD_WIDTH) None.

(** [clear_lines], first loop: collect the indices of the complete rows. *)
Fixpoint clear_lines_scan (ys : list Z) (lines_to_clear : list Z) : M (list Z) :=
  match ys with
  | [] => ret lines_to_clear
  | y :: rest =>
      let! b := gets board in
      let! r := lift (getitem b y) in
      if row_complete r then clear_lines_scan rest (lines_to_clear ++ [y])
      else clear_lines_scan rest lines_to_clear
  end.

(** [clear_lines], second loop: delete each collected row and put an
    empty row in front. *)
Fixpoint clear_lines_delete (lines_to_clear : list Z) : M unit :=
  match lines_to_clear with
  | [] => ret tt
  | y :: rest =>
      let! b := gets board in
      let! b' := lift (delitem b y) in
      modify (set_board (empty_row :: b')) >>
      clear_lines_delete rest
  end.

(** The dictionary [points] of [clear_lines]. *)
Definition points (n : Z) : option Z :=
  if n =? 1 then Some 100
  else if n =? 2 then Some 300
  else if n =? 3 then Some 500
  else if n =? 4 then Some 800
  else None.

(** [clear_lines(self)].  The body has no [return]: the call gives
    [None].  Python's [//] with a positive divisor is [Z.div]. *)
Definition clear_lines : M value :=
  let! lines_to_clear := clear_lines_scan (range BOARD_HEIGHT) [] in
  clear_lines_delete lines_to_clear >>
  let num_lines := Z.of_nat (length lines_to_clear) in
  (if num_lines >? 0 then
     modify (fun s => set_lines_cleared (lines_cleared s + num_lines) s) >>
     modify (fun s => set_score (score s + default 800 (points num_lines) * level s) s) >>
     modify (fun s => set_level (lines_cleared s / 10 + 1) s)
   else ret tt) >>
  ret VNone.

(** [get_ghost_y(self)]: the [while] loop. *)
Fixpoint get_ghost_y_loop (fuel : nat) (ghost_y : Z) : M Z :=
  match fuel with
  | O => out_of_fuel
  | S fuel' =>
      let! cx := gets current_x in
      let! piece := (let! p := gets current_piece in not_none TypeError p) in
      let! ok := is_valid_position cx (ghost_y + 1) piece in
      if ok then get_ghost_y_loop fuel' (ghost_y + 1)
      else ret ghost_y
  end.

Definition get_ghost_y (fuel : nat) : M Z :=
  let! cy := gets current_y in
  get_ghost_y_loop fuel cy.

(** The dictionary [speeds] of [get_drop_speed].  The code only selects
    one of these float literals, it computes nothing with them; each is
    kept as the decimal it is written as. *)
Definition speeds (l : Z) : option Q :=
  if l =? 1 then Some 1.0%Q
  else if l =? 2 then Some 0.8%Q
  else if l =? 3 then Some 0.65%Q
  else if l =? 4 then Some 0.5%Q
  else if l =? 5 then Some 0.4%Q
  else if l =? 6 then Some 0.3%Q
  else if l =? 7 then Some 0.25%Q
  else if l =? 8 then Some 0.2%Q
  else if l =? 9 then Some 0.15%Q
  else if l =? 10 then Some 0.1%Q
  else None.

(** [get_drop_speed(self)]: [speeds.get(min(self.level, 10), 0.1)]. *)
Definition get_drop_speed : M Q :=
  let! l := gets level in
  ret (default 0.1%Q (speeds (Z.min l 10))).

(** [lock_piece], the loop writing the cells of the piece. *)
Fixpoint lock_piece_cells (piece : layout) : M unit :=
  match piece with
  | [] => ret tt
  | (px, py) :: rest =>
      let! cx := gets current_x in
      let! cy := gets current_y in
      let x := cx + px in
      let y := cy + py in
      (if (0 <=? y) && (y <? BOARD_HEIGHT) && ((0 <=? x) && (x <? BOARD_WIDTH)) then
         let! b := gets board in
         let! r := lift (getitem b y) in
         let! t := gets current_type in
         let! r' := lift (setitem r x t) in
         let! b' := lift (setitem b y r') in
         modify (set_board b')
       else ret tt) >>
      lock_piece_cells rest
  end.

(** [hard_drop], the loop [while self.move(0, 1): drop_distance += 1]. *)
Fixpoint hard_drop_loop (fuel : nat) (drop_distance : Z) : M Z :=
  match fuel with
  | O => out_of_fuel
  | S fuel' =>
      let! ok := move 0 1 in
      if ok then hard_drop_loop fuel' (drop_distance + 1)
      else ret drop_distance
  end.

(** The methods below draw from the bag, so they depend on what
    [random.shuffle] does.  [shuffle n l] is the order in which the call
    number [n] of [random.shuffle] leaves the list [l]. *)
Section Randomized.

Variable shuffle : nat -> list Kind -> list Kind.

(** [get_next_piece_type(self)] *)
Definition get_next_piece_type : M Kind :=
  let! b := gets bag in
  (if bool_decide (b = []) then
     let! n := gets shuffles in
     modify (set_bag (shuffle n TETROMINOES_keys)) >>
     modify (set_shuffles (S n))
   else ret tt) >>
  let! b := gets bag in
  let! (k, b') := lift (pop b) in
  modify (set_bag b') >>
  ret k.

(** [spawn_piece(self)].  A kind is a non-empty string, so
    [if self.next_type] asks whether [next_type] is not [None]. *)
Definition spawn_piece : M value :=
  let! nt := gets next_type in
  (match nt with
   | Some k => modify (set_current_type (Some k))
   | None =>
       let! k := get_next_piece_type in
       modify (set_current_type (Some k))
   end) >>
  let! k := get_next_piece_type in
  modify (set_next_type (Some k)) >>
  modify (set_current_rotation 0) >>
  let! k := (let! t := gets current_type in not_none KeyError t) in
  let! p := lift (getitem (TETROMINOES k) 0) in
  modify (set_current_piece (Some p)) >>
  modify (set_current_x (BOARD_WIDTH / 2 - 2)) >>
  modify (set_current_y 0) >>
  let! cx := gets current_x in
  let! cy := gets current_y in
  let! piece := (let! p := gets current_piece in not_none TypeError p) in
  let! ok := is_valid_position cx cy piece in
  (if negb ok then modify (set_game_over true) else ret tt) >>
  ret VNone.

(** [lock_piece(self)] *)
Definition lock_piece : M value :=
  let! piece := (let! p := gets current_piece in not_none TypeError p) in
  lock_piece_cells piece >>
  clear_lines >>
  spawn_piece >>
  ret VNone.

(** [hard_drop(self)] *)
Definition hard_drop (fuel : nat) : M value :=
  let! drop_distance := hard_drop_loop fuel 0 in
  modify (fun s => set_score (score s + drop_distance * 2) s) >>
  lock_piece >>
  ret VNone.

(** [Tetris()]: the constructor, run when [random.shuffle] has been
    called [n] times before. *)
Definition init (n : nat) : outcome (value * Tetris) :=
  (spawn_piece >>
   let! k := get_next_piece_type in
   modify (set_next_type (Some k)) >>
   ret VNone)
    {| board := replicate (Z.to_nat BOARD_HEIGHT) empty_row;
       score := 0; level := 1; lines_cleared := 0;
       game_over := false; paused := false;
       bag := []; current_piece := None; current_type := None;
       current_rotation := 0; current_x := 0; current_y := 0;
       next_type := None; shuffles := n |}.

(** [n] calls of [get_next_piece_type] in a row, and what they return,
    first call first. *)
Fixpoint draws (n : nat) : M (list Kind) :=
  match n with
  | O => ret []
  | S n' =>
      let! k := get_next_piece_type in
      let! ks := draws n' in
      ret (k :: ks)
  end.

End Randomized.

(** ** The loop of [main] *)

(** [ord(c)] for the keys [main] tests. *)
Definition ord_q : Z := 113.
Definition ord_Q : Z := 81.
Definition ord_p : Z := 112.
Definition ord_P : Z := 80.
Definition ord_a : Z := 97.
Definition ord_A : Z := 65.
Definition ord_d : Z := 100.
Definition ord_D : Z := 68.
Definition ord_s : Z := 115.
Definition ord_S : Z := 83.
Definition ord_w : Z := 119.
Definition ord_W : Z := 87.
Definition ord_space : Z := 32.
Definition ord_r : Z := 114.
Definition ord_R : Z := 82.

(** [key in keys] *)
Definition key_in (key : Z) (keys : list Z) : bool := bool_decide (key ∈ keys).

Section Driver.

(** The key codes of the [curses] module. *)
Variables KEY_LEFT KEY_RIGHT KEY_DOWN KEY_UP : Z.

Variable shuffle : nat -> list Kind -> list Kind.

(** One pass of the [while True] loop of [main], from [# Handle input]
    to the end of [# Auto drop], as far as it acts on [game]; it is
    reached only when the game is not over.  [key] is what
    [stdscr.getch()] gave (-1 for no key); [due] is the outcome of the
    clock test [current_time - last_drop >= game.get_drop_speed()],
    which is read when the game is neither paused nor over.  The
    result is [True] when the loop is left by [break].  Drawing,
    [last_drop] and the sleep do not act on [game]. *)
Definition main_iteration (fuel : nat) (key : Z) (due : bool) : M bool :=
  if key_in key [ord_q; ord_Q] then ret true
  else
    (if key_in key [ord_p; ord_P] then
       modify (fun s => set_paused (negb (paused s)) s)
     else
       let! pa := gets paused in
       if negb pa then
         if key_in key [KEY_LEFT; ord_a; ord_A] then move (-1) 0 >> ret tt
         else if key_in key [KEY_RIGHT; ord_d; ord_D] then move 1 0 >> ret tt
         else if key_in key [KEY_DOWN; ord_s; ord_S] then
           let! ok := move 0 1 in
           if ok then modify (fun s => set_score (score s + 1) s) else ret tt
         else if key_in key [KEY_UP; ord_w; ord_W] then rotate >> ret tt
         else if key =? ord_space then hard_drop shuffle fuel >> ret tt
         else ret tt
       else ret tt) >>
    let! pa := gets paused in
    let! go := gets game_over in
    (if negb pa && negb go then
       if due then
         let! ok := move 0 1 in
         if negb ok then lock_piece shuffle >> ret tt else ret tt
       else ret tt
     else ret tt) >>
    ret false.

(** The [while True] loop of [main] run on a finite list of inputs, one
    [(key, due)] for each call of [stdscr.getch()].  While the game is
    over, the loop waits for a key: [q] or [Q] ends [main], [r] or [R]
    replaces the game by a new [Tetris()], any other key is ignored.
    Otherwise a key goes through [main_iteration].  The result is
    [True] when [main] has returned, [False] when the inputs are used
    up with the loop still running. *)
Fixpoint main_loop (fuel : nat) (inputs : list (Z * bool)) : M bool :=
  match inputs with
  | [] => ret false
  | (key, due) :: rest =>
      let! go := gets game_over in
      if go then
        if key_in key [ord_q; ord_Q] then ret true
        else if key_in key [ord_r; ord_R] then
          (fun s => init shuffle (shuffles s)) >> main_loop fuel rest
        else main_loop fuel rest
      else
        let! quit := main_iteration fuel key due in
        if quit then ret true else main_loop fuel rest
  end.

End Driver.

(** ** Vocabulary of the properties *)

(** A Playfield: [BOARD_HEIGHT] rows of [BOARD_WIDTH] cells. *)
Definition wf_board (b : grid) : Prop :=
  length b = Z.to_nat BOARD_HEIGHT /\
  Forall (fun r : row => length r = Z.to_nat BOARD_WIDTH) b.

(** The content of the board cell in column [x] of row [y]. *)
Definition cell_at (b : grid) (x y : Z) : option (option Kind) :=
  match b !! Z.to_nat y with
  | Some r => r !! Z.to_nat x
  | None => None
  end.

(** The specification's condition on one cell of a placement: inside the
    columns, above the floor and, when inside the visible rows, empty. *)
Definition cell_admissible (b : grid) (x y : Z) (c : cell) : Prop :=
  0 <= x + c.1 < BOARD_WIDTH /\
  y + c.2 < BOARD_HEIGHT /\
  (0 <= y + c.2 -> cell_at b (x + c.1) (y + c.2) = Some None).

(** The same condition as a test. *)
Definition cell_fits (b : grid) (x y : Z) (c : cell) : bool :=
  (0 <=? x + c.1) && (x + c.1 <? BOARD_WIDTH) && (y + c.2 <? BOARD_HEIGHT) &&
  ((y + c.2 <? 0) ||
   match cell_at b (x + c.1) (y + c.2) with Some None => true | _ => false end).

Definition fits (b : grid) (x y : Z) (piece : layout) : bool :=
  forallb (cell_fits b x y) piece.

(** Whether [is_valid_position(x, y, p)], called in state [s], returns
    [True]. *)
Definition valid_at (s : Tetris) (x y : Z) (p : layout) : bool :=
  match is_valid_position x y p s with
  | Ret (true, _) => true
  | _ => false
  end.

(** [falls d s s']: from [s], [move(0, 1)] succeeds [d] times in a row
    and then fails, leaving the state [s']. *)
Inductive falls : nat -> Tetris -> Tetris -> Prop :=
| falls_stop (s : Tetris) :
    move 0 1 s = Ret (false, s) -> falls 0 s s
| falls_step (d : nat) (s s1 s' : Tetris) :
    move 0 1 s = Ret (true, s1) -> falls d s1 s' -> falls (S d) s s'.

(** [lands b x y p d]: the piece [p] in column offset [x] fits in each
    of the [d] rows below [y] and not in the row after them. *)
Definition lands (b : grid) (x y : Z) (p : layout) (d : nat) : Prop :=
  (forall i : nat, (0 < i <= d)%nat -> fits b x (y + Z.of_nat i) p = true) /\
  fits b x (y + Z.of_nat d + 1) p = false.

(** A layout of the catalog. *)
Definition catalog_layout (p : layout) : Prop :=
  exists (k : Kind) (r : nat), TETROMINOES k !! r = Some p.

(** The indices of the complete rows of [rows], counted from [i]. *)
Fixpoint complete_rows_from (i : nat) (rows : grid) : list Z :=
  match rows with
  | [] => []
  | r :: rest =>
      if row_complete r then Z.of_nat i :: complete_rows_from (S i) rest
      else complete_rows_from (S i) rest
  end.

(** The number of rows of the board whose cells are all occupied. *)
Definition completed (b : grid) : nat := length (List.filter row_complete b).

(** The rows with an empty cell, in the order of the board. *)
Definition remaining (b : grid) : grid :=
  List.filter (fun r => negb (row_complete r)) b.

(** The board after a line clear, in the words of the specification:
    the complete rows are gone, as many empty rows are on top, the
    other rows are in their old order. *)
Definition compacted (b : grid) : grid :=
  replicate (completed b) empty_row ++ remaining b.

(** The reward for [n >= 1] lines at level 1: 100, 300, 500, 800, and
    800 for more than 4. *)
Definition reward (n : Z) : Z :=
  if n =? 1 then 100 else if n =? 2 then 300 else if n =? 3 then 500 else 800.

(** The state [clear_lines] leaves. *)
Definition cleared (s : Tetris) : Tetris :=
  let n := Z.of_nat (completed (board s)) in
  let s1 := set_board (compacted (board s)) s in
  if n >? 0 then
    set_level ((lines_cleared s + n) / 10 + 1)
      (set_score (score s + reward n * level s)
         (set_lines_cleared (lines_cleared s + n) s1))
  else s1.

(** The state [rotate] commits: new rotation index and layout, offset
    moved by [d]. *)
Definition rotated (new_rotation : Z) (new_piece : layout) (d : Z * Z) (s : Tetris)
  : Tetris :=
  set_current_piece (Some new_piece)
    (set_current_rotation new_rotation
       (set_current_y (current_y s + d.2)
          (set_current_x (current_x s + d.1) s))).

(** The offsets [rotate] tries, in the order of the specification: none,
    then the wall kicks. *)
Definition rotation_offsets : list (Z * Z) :=
  [(0, 0); (-1, 0); (1, 0); (-2, 0); (2, 0); (0, -1)].

(** A cell of the 4x4 local frame. *)
Definition in_frame (c : cell) : Prop := 0 <= c.1 < 4 /\ 0 <= c.2 < 4.

Global Instance in_frame_dec (c : cell) : Decision (in_frame c).
Proof. unfold in_frame. apply _. Defined.

(** A rotation state of the catalog: four distinct cells of the frame. *)
Definition rotation_state (p : layout) : Prop :=
  length p = 4%nat /\ NoDup p /\ Forall in_frame p.

(** The rows of a board that are complete are exactly rows 5 and 7. *)
Definition rows_5_and_7_complete (b : grid) : Prop :=
  forall (i : nat) (r : row),
    b !! i = Some r -> (row_complete r = true <-> i = 5%nat \/ i = 7%nat).

(** The state [spawn_piece] leaves when it makes [k] the active kind,
    with layout [p], and draws [k'] as the next kind. *)
Definition spawned (k k' : Kind) (p : layout) (b : list Kind) (n : nat) (s : Tetris)
  : Tetris :=
  {| board := board s; score := score s; level := level s;
     lines_cleared := lines_cleared s;
     game_over := if fits (board s) 3 0 p then game_over s else true;
     paused := paused s; bag := b;
     current_piece := Some p; current_type := Some k;
     current_rotation := 0; current_x := 3; current_y := 0;
     next_type := Some k'; shuffles := n |}.

(** The empty Playfield of a new game. *)
Definition empty_board : grid := replicate (Z.to_nat BOARD_HEIGHT) empty_row.

(** A row with an O piece locked in columns 4 and 5. *)
Definition O_row : row :=
  [None; None; None; None; Some KO; Some KO; None; None; None; None].

(** ** Scenarios *)

(** A shuffle that always leaves the bag in this order: O is drawn
    first, then L, J, Z, S, T, I. *)
Definition forced_order : list Kind := [KI; KT; KS; KZ; KJ; KL; KO].
Definition forced_shuffle : nat -> list Kind -> list Kind := fun _ _ => forced_order.

(** The game [Tetris()] builds with that shuffle: an O piece at its
    spawn position over the empty board. *)
Definition new_game_O : Tetris :=
  {| board := empty_board; score := 0; level := 1; lines_cleared := 0;
     game_over := false; paused := false;
     bag := [KI; KT; KS; KZ];
     current_piece := Some [(1, 0); (2, 0); (1, 1); (2, 1)];
     current_type := Some KO;
     current_rotation := 0; current_x := 3; current_y := 0;
     next_type := Some KJ; shuffles := 1 |}.

(** A stack that has reached row 2 in columns 3 to 6. *)
Definition tower_row : row :=
  [None; None; None; Some KI; Some KI; Some KI; Some KI; None; None; None].
Definition tower_board : grid := [empty_row; empty_row] ++ replicate 18 tower_row.

(** An O piece resting on the tower, a T piece next. *)
Definition tower_game : Tetris :=
  {| board := tower_board; score := 120; level := 1; lines_cleared := 0;
     game_over := false; paused := false;
     bag := [KI; KS];
     current_piece := Some [(1, 0); (2, 0); (1, 1); (2, 1)];
     current_type := Some KO;
     current_rotation := 0; current_x := 3; current_y := 0;
     next_type := Some KT; shuffles := 1 |}.

(** [tower_game] once [lock_piece] has written the O piece into rows 0
    and 1, before it calls [spawn_piece]. *)
Definition tower_locked : Tetris :=
  set_board ([O_row; O_row] ++ replicate 18 tower_row) tower_game.

(** [tower_game] after [lock_piece]: the T piece could not spawn. *)
Definition tower_over : Tetris :=
  {| board := [O_row; O_row] ++ replicate 18 tower_row;
     score := 120; level := 1; lines_cleared := 0;
     game_over := true; paused := false;
     bag := [KI];
     current_piece := Some [(1, 0); (0, 1); (1, 1); (2, 1)];
     current_type := Some KT;
     current_rotation := 0; current_x := 3; current_y := 0;
     next_type := Some KS; shuffles := 1 |}.

(** A board whose rows 5 and 7 are the only complete ones. *)
Definition full_row : row := replicate 10 (Some KI).
Definition gap_row : row := replicate 9 (Some KJ) ++ [None].
Definition rows57_board : grid :=
  replicate 5 empty_row ++ [full_row; O_row; full_row] ++ replicate 12 gap_row.
Definition rows57_game : Tetris := set_board rows57_board new_game_O.

(** Four complete rows at the bottom, at level 3. *)
Definition four_lines_game : Tetris :=
  set_level 3 (set_lines_cleared 24 (set_score 5000
    (set_board (replicate 16 empty_row ++ replicate 4 full_row) new_game_O))).

(** A high stack with a well in columns 7 to 9 and overhangs in rows 0
    and 2, and a T piece that has just spawned over it. *)
Definition well_row : row :=
  replicate 7 (Some KI) ++ [None; None; None].
Definition kick_board : grid :=
  [ [Some KJ; Some KJ; Some KJ; Some KJ; None; None; Some KL; None; None; None];
    empty_row;
    [None; None; Some KS; Some KS; Some KS; Some KS; Some KS; None; None; None] ]
  ++ replicate 17 well_row.
Definition kick_start : Tetris :=
  {| board := kick_board; score := 0; level := 1; lines_cleared := 0;
     game_over := false; paused := false;
     bag := [KI; KS];
     current_piece := Some [(1, 0); (0, 1); (1, 1); (2, 1)];
     current_type := Some KT;
     current_rotation := 0; current_x := 3; current_y := 0;
     next_type := Some KO; shuffles := 1 |}.

(** The player's keys from [kick_start]: rotate four times, left three
    times, rotate four times, right seven times. *)
Definition climb : M bool :=
  rotate >> rotate >> rotate >> rotate >>
  move (-1) 0 >> move (-1) 0 >> move (-1) 0 >>
  rotate >> rotate >> rotate >> rotate >>
  move 1 0 >> move 1 0 >> move 1 0 >> move 1 0 >>
  move 1 0 >> move 1 0 >> move 1 0.

(** Where [climb] leaves the T piece: three rows above the board, over
    the well. *)
Definition kicked_game : Tetris := set_current_y (-3) (set_current_x 7 kick_start).

(** A T piece at its spawn position over the empty board. *)
Definition free_T : Tetris := set_board empty_board kick_start.

(** ** Vocabulary of the further properties *)

(** The board once [lock_piece] has handled the cell [c] of a piece of
    kind [t] at offset [(cx, cy)]: the cell is written when it lies in
    the grid. *)
Definition write_cell (t : option Kind) (cx cy : Z) (b : grid) (c : cell) : grid :=
  let x := cx + c.1 in
  let y := cy + c.2 in
  if (0 <=? y) && (y <? BOARD_HEIGHT) && ((0 <=? x) && (x <? BOARD_WIDTH)) then
    match b !! Z.to_nat y with
    | Some r => <[Z.to_nat y := <[Z.to_nat x := t]> r]> b
    | None => b
    end
  else b.

(** The board once [lock_piece] has handled all cells of [piece]. *)
Definition locked_board (t : option Kind) (cx cy : Z) (b : grid) (piece : layout)
  : grid :=
  foldl (write_cell t cx cy) b piece.

(** The piece [piece] at offset [(cx, cy)] has a cell on [(x, y)]. *)
Definition covers (cx cy : Z) (piece : layout) (x y : Z) : Prop :=
  (x - cx, y - cy) ∈ piece.

Global Instance covers_dec cx cy piece x y : Decision (covers cx cy piece x y).
Proof. unfold covers. apply _. Defined.

(** A cell of the grid. *)
Definition in_grid (x y : Z) : Prop :=
  0 <= x < BOARD_WIDTH /\ 0 <= y < BOARD_HEIGHT.

(** The number of occupied cells of a row, of a board. *)
Definition occupied_row (r : row) : nat := length (List.filter is_not_None r).
Definition occupied (b : grid) : nat := sum_list (map occupied_row b).

(** What holds of a game between two calls of its methods: the board
    is a Playfield without a complete row; the active piece is a piece
    of the catalog, with its kind, a rotation index in 0..3 and the
    layout of that index; a next kind is previewed; the level is the one
    the line count gives; the score is not negative; and unless the
    game is over the active piece is at a valid position. *)
Record consistent (s : Tetris) : Prop := mk_consistent {
  consistent_board : wf_board (board s);
  consistent_lines : completed (board s) = 0%nat;
  consistent_piece :
    exists k : Kind,
      current_type s = Some k /\ 0 <= current_rotation s < 4 /\
      current_piece s = TETROMINOES k !! Z.to_nat (current_rotation s);
  consistent_next : is_Some (next_type s);
  consistent_level : 0 <= lines_cleared s /\ level s = lines_cleared s / 10 + 1;
  consistent_score : 0 <= score s;
  consistent_placed :
    forall p : layout,
      current_piece s = Some p -> game_over s = false ->
      valid_at s (current_x s) (current_y s) p = true
}.

(** [advances s s']: the game went on from [s] to the consistent state
    [s'] without losing score or cleared lines, without leaving game
    over, and without lifting a piece that was at row offset -4 or
    lower any higher than -4. *)
Definition advances (s s' : Tetris) : Prop :=
  consistent s' /\ score s <= score s' /\
  lines_cleared s <= lines_cleared s' /\
  (game_over s = true -> game_over s' = true) /\
  (-4 <= current_y s -> -4 <= current_y s').

(** The key codes of ncurses for the arrow keys. *)
Definition curses_KEY_DOWN : Z := 258.
Definition curses_KEY_UP : Z := 259.
Definition curses_KEY_LEFT : Z := 260.
Definition curses_KEY_RIGHT : Z := 261.

(** * Properties *)

(** Reduce the attribute reads and assignments in the goal. *)
Ltac simpl_state :=
  cbn [board score level lines_cleared game_over paused bag current_piece
       current_type current_rotation current_x current_y next_type shuffles
       set_board set_score set_level set_lines_cleared set_game_over set_bag
       set_current_piece set_current_type set_current_rotation set_current_x
       set_current_y set_next_type set_shuffles].

(** ** Python indexing *)

Lemma norm_index_nonneg (n : nat) (i : Z) :
  0 <= i < Z.of_nat n -> norm_index n i = Some (Z.to_nat i).
Proof.
  intros Hi. unfold norm_index.
  destruct (i <? 0) eqn:E; [lia |].
  destruct (0 <=? i) eqn:E1; [| lia].
  destruct (i <? Z.of_nat n) eqn:E2; [done | lia].
Qed.

Lemma getitem_lookup {A : Type} (l : list A) (i : Z) (a : A) :
  0 <= i -> l !! Z.to_nat i = Some a -> getitem l i = Ret a.
Proof.
  intros Hi Hl. unfold getitem.
  pose proof (lookup_lt_Some _ _ _ Hl) as Hlt.
  rewrite norm_index_nonneg by lia. by rewrite Hl.
Qed.

Lemma delitem_nonneg {A : Type} (l : list A) (i : Z) :
  0 <= i < Z.of_nat (length l) -> delitem l i = Ret (delete (Z.to_nat i) l).
Proof. intros Hi. unfold delitem. by rewrite norm_index_nonneg. Qed.

(** ** Placement validity *)

Lemma wf_board_row (b : grid) (y : Z) :
  wf_board b -> 0 <= y < BOARD_HEIGHT ->
  exists r, b !! Z.to_nat y = Some r /\ length r = Z.to_nat BOARD_WIDTH.
Proof.
  intros [Hlen Hrows] Hy.
  destruct (lookup_lt_is_Some_2 b (Z.to_nat y)) as [r Hr]; [lia |].
  exists r. split; [done |].
  by eapply (Forall_lookup_1 _ _ _ _ Hrows).
Qed.

Lemma wf_board_cell (b : grid) (x y : Z) :
  wf_board b -> 0 <= y < BOARD_HEIGHT -> 0 <= x < BOARD_WIDTH ->
  exists r c, b !! Z.to_nat y = Some r /\ r !! Z.to_nat x = Some c /\
              cell_at b x y = Some c.
Proof.
  intros Hwf Hy Hx.
  destruct (wf_board_row b y Hwf Hy) as (r & Hr & Hlen).
  destruct (lookup_lt_is_Some_2 r (Z.to_nat x)) as [c Hc]; [lia |].
  exists r, c. repeat split; [done | done |].
  unfold cell_at. by rewrite Hr.
Qed.

(** On a Playfield, [is_valid_position] raises nothing, changes nothing
    and computes [fits]. *)
Lemma is_valid_position_fits (x y : Z) (piece : layout) (s : Tetris) :
  wf_board (board s) ->
  is_valid_position x y piece s = Ret (fits (board s) x y piece, s).
Proof.
  intros Hwf. induction piece as [| [px py] rest IH]; [done |].
  cbn [is_valid_position fits forallb]. unfold cell_fits at 1. cbn [fst snd].
  fold (fits (board s) x y rest).
  rewrite !Z.geb_leb.
  destruct (Z.ltb_spec (x + px) 0), (Z.leb_spec 0 (x + px));
    try lia; cbn [orb andb]; [done |].
  destruct (Z.leb_spec BOARD_WIDTH (x + px)), (Z.ltb_spec (x + px) BOARD_WIDTH);
    try lia; cbn [orb andb]; [done |].
  destruct (Z.leb_spec BOARD_HEIGHT (y + py)), (Z.ltb_spec (y + py) BOARD_HEIGHT);
    try lia; cbn [orb andb]; [done |].
  destruct (Z.leb_spec 0 (y + py)), (Z.ltb_spec (y + py) 0);
    try lia; cbn [orb andb]; [| by rewrite IH].
  destruct (wf_board_cell (board s) (x + px) (y + py) Hwf) as (r & c & Hr & Hc & Hat);
    [lia | lia |].
  rewrite Hat.
  unfold bind at 1, gets. unfold bind at 1.
  rewrite (getitem_lookup (board s) (y + py) r) by (lia || done). cbn [lift].
  unfold bind at 1.
  rewrite (getitem_lookup r (x + px) c) by (lia || done). cbn [lift].
  destruct c as [k |]; cbn [is_not_None]; [done | by rewrite IH].
Qed.

Lemma cell_fits_admissible (b : grid) (x y : Z) (c : cell) :
  wf_board b -> cell_fits b x y c = true <-> cell_admissible b x y c.
Proof.
  intros Hwf. unfold cell_fits, cell_admissible.
  rewrite !andb_true_iff, orb_true_iff, !Z.leb_le, !Z.ltb_lt.
  split.
  - intros [[[? ?] ?] Hc]. repeat split; try lia.
    intros Hy. destruct Hc as [? | Hc]; [lia |].
    destruct (cell_at b (x + c.1) (y + c.2)) as [[k |] |]; done.
  - intros [? [? Hc]]. repeat split; try lia.
    destruct (Z_lt_le_dec (y + c.2) 0) as [? | Hy]; [by left | right].
    by rewrite (Hc Hy).
Qed.

Lemma fits_admissible (b : grid) (x y : Z) (piece : layout) :
  wf_board b -> fits b x y piece = true <-> Forall (cell_admissible b x y) piece.
Proof.
  intros Hwf. unfold fits. induction piece as [| c rest IH]; cbn [forallb].
  - split; [constructor | done].
  - split.
    + intros [H1 H2]%andb_true_iff.
      constructor; [by apply cell_fits_admissible | by apply IH].
    + intros H. inversion H as [| ? ? H1 H2]; subst.
      apply andb_true_iff. split; [by apply cell_fits_admissible | by apply IH].
Qed.

(** C3. On every Playfield, for every piece and offset,
    [is_valid_position] returns [True] exactly when every absolute cell
    has [0 <= x < 10], [y < 20] and, whenever [y >= 0], an empty board
    cell under it.  In particular a placement whose cells are all above
    the board ([y < 0]) in columns in range is accepted, and a placement
    with a cell out of the columns, below the floor or on an occupied
    cell is rejected.  The call leaves the game state as it was. *)
Theorem is_valid_position_iff (s : Tetris) (x y : Z) (piece : layout) :
  wf_board (board s) ->
  exists v : bool,
    is_valid_position x y piece s = Ret (v, s) /\
    (v = true <-> Forall (cell_admissible (board s) x y) piece) /\
    (Forall (fun c : cell => 0 <= x + c.1 < BOARD_WIDTH /\ y + c.2 < 0) piece ->
     v = true) /\
    (Exists (fun c : cell =>
               x + c.1 < 0 \/ BOARD_WIDTH <= x + c.1 \/ BOARD_HEIGHT <= y + c.2 \/
               exists k, 0 <= y + c.2 /\
                         cell_at (board s) (x + c.1) (y + c.2) = Some (Some k)) piece ->
     v = false).
Proof.
  intros Hwf. exists (fits (board s) x y piece).
  split; [by apply is_valid_position_fits |].
  split; [by apply fits_admissible |].
  split.
  - intros Hall. apply fits_admissible; [done |].
    revert Hall. apply Forall_impl.
    intros c [Hx Hy]. unfold cell_admissible, BOARD_HEIGHT. repeat split; lia.
  - intros Hex. apply not_true_is_false. intros Hfit.
    apply fits_admissible in Hfit; [| done].
    apply Exists_exists in Hex as (c & Hc & Hbad).
    rewrite Forall_forall in Hfit. specialize (Hfit c Hc).
    destruct Hfit as (Hx & Hy & Hcell).
    destruct Hbad as [? | [? | [? | (k & Hk & Hat)]]]; try lia.
    rewrite (Hcell Hk) in Hat. discriminate.
Qed.

(** ** Moving *)

Lemma move_fits (dx dy : Z) (s : Tetris) (p : layout) :
  wf_board (board s) -> current_piece s = Some p ->
  move dx dy s =
    if fits (board s) (current_x s + dx) (current_y s + dy) p
    then Ret (true, set_current_y (current_y s + dy)
                      (set_current_x (current_x s + dx) s))
    else Ret (false, s).
Proof.
  intros Hwf Hp. unfold move, bind, gets. rewrite Hp. cbn [not_none ret].
  rewrite is_valid_position_fits by done.
  by destruct (fits _ _ _ _).
Qed.

(** ** Rotating *)

Lemma rotate_kicks_find (ks : list (Z * Z)) (r' : Z) (p' : layout) (s : Tetris) :
  wf_board (board s) ->
  rotate_kicks ks r' p' s =
    match find (fun d : Z * Z =>
                  fits (board s) (current_x s + d.1) (current_y s + d.2) p') ks with
    | Some d => Ret (true, rotated r' p' d s)
    | None => Ret (false, s)
    end.
Proof.
  intros Hwf. induction ks as [| [kx ky] ks IH]; [done |].
  cbn [rotate_kicks find fst snd]. unfold bind at 1, gets. unfold bind at 1.
  unfold bind at 1. rewrite is_valid_position_fits by done.
  destruct (fits _ _ _ _); [| exact IH].
  by destruct s.
Qed.

Lemma TETROMINOES_rotation (k : Kind) (r : Z) :
  exists p, TETROMINOES k !! Z.to_nat (r mod 4) = Some p /\
            getitem (TETROMINOES k) (r mod 4) = Ret p.
Proof.
  pose proof (Z.mod_pos_bound r 4 ltac:(lia)) as Hr.
  assert (Hlen : length (TETROMINOES k) = 4%nat) by by destruct k.
  destruct (lookup_lt_is_Some_2 (TETROMINOES k) (Z.to_nat (r mod 4))) as [p Hp];
    [lia |].
  exists p. split; [done |]. apply getitem_lookup; [lia | done].
Qed.

Lemma rotate_find (s : Tetris) (k : Kind) :
  wf_board (board s) -> current_type s = Some k ->
  exists new_piece,
    TETROMINOES k !! Z.to_nat ((current_rotation s + 1) mod 4) = Some new_piece /\
    rotate s =
      match find (fun d : Z * Z =>
                    fits (board s) (current_x s + d.1) (current_y s + d.2) new_piece)
                 rotation_offsets with
      | Some d => Ret (true, rotated ((current_rotation s + 1) mod 4) new_piece d s)
      | None => Ret (false, s)
      end.
Proof.
  intros Hwf Hk.
  destruct (TETROMINOES_rotation k (current_rotation s + 1)) as (p & Hp & Hget).
  exists p. split; [exact Hp |].
  unfold rotate, bind, gets. rewrite Hk. cbn [not_none ret].
  rewrite Hget. cbn [lift].
  rewrite is_valid_position_fits by done.
  unfold rotation_offsets. cbn [find fst snd]. rewrite !Z.add_0_r.
  destruct (fits (board s) (current_x s) (current_y s) p).
  - unfold rotated, modify. cbn [fst snd]. rewrite !Z.add_0_r. by destruct s.
  - rewrite (rotate_kicks_find kicks _ p s Hwf).
    unfold kicks. cbn [find fst snd]. by rewrite !Z.add_0_r.
Qed.

Lemma valid_at_fits (s : Tetris) (x y : Z) (p : layout) :
  wf_board (board s) -> valid_at s x y p = fits (board s) x y p.
Proof.
  intros Hwf. unfold valid_at. rewrite is_valid_position_fits by done.
  by destruct (fits _ _ _ _).
Qed.

(** C4. [rotate] takes the layout of rotation index [(r + 1) mod 4] and
    tries the offsets (0,0), (-1,0), (1,0), (-2,0), (2,0), (0,-1) in
    this order.  The first offset at which [is_valid_position] accepts
    the new layout is committed (rotation index, layout and board
    offset) and [rotate] returns [True]; when none is accepted it
    returns [False] and the game state is the one it started with. *)
Theorem rotate_first_valid_offset (s : Tetris) (k : Kind) :
  wf_board (board s) -> current_type s = Some k ->
  let new_rotation := (current_rotation s + 1) mod 4 in
  exists new_piece,
    TETROMINOES k !! Z.to_nat new_rotation = Some new_piece /\
    rotate s =
      match find (fun d : Z * Z =>
                    valid_at s (current_x s + d.1) (current_y s + d.2) new_piece)
                 [(0, 0); (-1, 0); (1, 0); (-2, 0); (2, 0); (0, -1)] with
      | Some d => Ret (true, rotated new_rotation new_piece d s)
      | None => Ret (false, s)
      end.
Proof.
  intros Hwf Hk new_rotation.
  destruct (rotate_find s k Hwf Hk) as (p & Hp & Hrot).
  exists p. split; [exact Hp |].
  rewrite Hrot. unfold rotation_offsets. cbn [find].
  by rewrite !valid_at_fits.
Qed.

Lemma TETROMINOES_states (k : Kind) :
  length (TETROMINOES k) = 4%nat /\ Forall rotation_state (TETROMINOES k).
Proof.
  split; [by destruct k |].
  unfold rotation_state.
  destruct k; apply (bool_decide_unpack _); vm_compute; reflexivity.
Qed.

(** A rotation that needs no wall kick keeps the offset. *)
Lemma rotate_plain (s : Tetris) (k : Kind) (p : layout) :
  wf_board (board s) -> current_type s = Some k ->
  TETROMINOES k !! Z.to_nat ((current_rotation s + 1) mod 4) = Some p ->
  fits (board s) (current_x s) (current_y s) p = true ->
  rotate s = Ret (true, set_current_piece (Some p)
                          (set_current_rotation ((current_rotation s + 1) mod 4) s)).
Proof.
  intros Hwf Hk Hp Hfit.
  destruct (rotate_find s k Hwf Hk) as (p' & Hp' & Hrot).
  rewrite Hp in Hp'. injection Hp' as <-.
  rewrite Hrot. unfold rotation_offsets. cbn [find fst snd].
  rewrite !Z.add_0_r, Hfit. unfold rotated. cbn [fst snd].
  rewrite !Z.add_0_r. by destruct s.
Qed.

(** C8. Every kind of the catalog has 4 rotation states, each of exactly
    4 (distinct) cells of the 4x4 local frame.  In a game state whose
    piece is a catalog piece (rotation index [r] in 0..3, layout
    [TETROMINOES[kind][r]]) and in which the rotation without offset is
    a valid position at each of four steps, four calls of [rotate] all
    return [True], go through the rotation indices [(r + i) mod 4], and
    end in the state they started from: same rotation index, same
    layout. *)
Theorem rotate_four_times :
  (forall k, length (TETROMINOES k) = 4%nat /\ Forall rotation_state (TETROMINOES k)) /\
  (forall (s : Tetris) (k : Kind),
     wf_board (board s) -> current_type s = Some k ->
     0 <= current_rotation s < 4 ->
     current_piece s = TETROMINOES k !! Z.to_nat (current_rotation s) ->
     (forall i, 1 <= i <= 4 ->
        exists p, TETROMINOES k !! Z.to_nat ((current_rotation s + i) mod 4) = Some p /\
                  is_valid_position (current_x s) (current_y s) p s = Ret (true, s)) ->
     exists s1 s2 s3 s4,
       rotate s = Ret (true, s1) /\ rotate s1 = Ret (true, s2) /\
       rotate s2 = Ret (true, s3) /\ rotate s3 = Ret (true, s4) /\
       current_rotation s1 = (current_rotation s + 1) mod 4 /\
       current_rotation s2 = (current_rotation s + 2) mod 4 /\
       current_rotation s3 = (current_rotation s + 3) mod 4 /\
       current_rotation s4 = current_rotation s /\
       current_piece s4 = current_piece s /\
       s4 = s).
Proof.
  split; [exact TETROMINOES_states |].
  intros s k Hwf Hk Hr Hpiece Hvalid.
  assert (Hfit : forall i, 1 <= i <= 4 ->
            exists p, TETROMINOES k !! Z.to_nat ((current_rotation s + i) mod 4) = Some p /\
                      fits (board s) (current_x s) (current_y s) p = true).
  { intros i Hi. destruct (Hvalid i Hi) as (p & Hp & Hv). exists p. split; [done |].
    rewrite is_valid_position_fits in Hv by done. congruence. }
  clear Hvalid.
  destruct (Hfit 1 ltac:(lia)) as (p1 & Hp1 & Hf1).
  destruct (Hfit 2 ltac:(lia)) as (p2 & Hp2 & Hf2).
  destruct (Hfit 3 ltac:(lia)) as (p3 & Hp3 & Hf3).
  destruct (Hfit 4 ltac:(lia)) as (p4 & Hp4 & Hf4).
  set (r := current_rotation s) in *.
  set (s1 := set_current_piece (Some p1) (set_current_rotation ((r + 1) mod 4) s)).
  set (s2 := set_current_piece (Some p2) (set_current_rotation ((r + 2) mod 4) s1)).
  set (s3 := set_current_piece (Some p3) (set_current_rotation ((r + 3) mod 4) s2)).
  set (s4 := set_current_piece (Some p4) (set_current_rotation ((r + 4) mod 4) s3)).
  assert (Hstep : forall i, ((r + i) mod 4 + 1) mod 4 = (r + (i + 1)) mod 4).
  { intros i. rewrite Z.add_mod_idemp_l by lia. f_equal. lia. }
  assert (H4 : (r + 4) mod 4 = r).
  { rewrite <- (Z.mul_1_l 4) at 1. rewrite Z.mod_add by lia. apply Z.mod_small. lia. }
  exists s1, s2, s3, s4.
  assert (E1 : rotate s = Ret (true, s1)) by by apply (rotate_plain s k p1).
  assert (E2 : rotate s1 = Ret (true, s2)).
  { rewrite (rotate_plain s1 k p2); cbn; try done.
    - by rewrite (Hstep 1).
    - by rewrite (Hstep 1). }
  assert (E3 : rotate s2 = Ret (true, s3)).
  { rewrite (rotate_plain s2 k p3); cbn; try done.
    - by rewrite (Hstep 2).
    - by rewrite (Hstep 2). }
  assert (E4 : rotate s3 = Ret (true, s4)).
  { rewrite (rotate_plain s3 k p4); cbn; try done.
    - by rewrite (Hstep 3).
    - by rewrite (Hstep 3). }
  assert (Es : s4 = s).
  { unfold s4, s3, s2, s1. rewrite H4.
    rewrite H4 in Hp4. rewrite Hp4 in Hpiece.
    destruct s; cbn in *. subst r. by rewrite Hpiece. }
  repeat split; try done; by rewrite Es.
Qed.

(** ** Falling *)

Lemma move_down (s : Tetris) (p : layout) :
  wf_board (board s) -> current_piece s = Some p ->
  move 0 1 s =
    if fits (board s) (current_x s) (current_y s + 1) p
    then Ret (true, set_current_y (current_y s + 1) s)
    else Ret (false, s).
Proof.
  intros Hwf Hp. rewrite (move_fits 0 1 s p Hwf Hp), Z.add_0_r.
  destruct (fits _ _ _ _); [| done]. by destruct s.
Qed.

(** A cell at or below the floor makes the placement invalid. *)
Lemma fits_floor (b : grid) (x y : Z) (p : layout) (c : cell) :
  c ∈ p -> BOARD_HEIGHT <= y + c.2 -> fits b x y p = false.
Proof.
  intros Hc Hy. apply not_true_is_false. intros Hfit.
  unfold fits in Hfit. rewrite forallb_forall in Hfit.
  apply list_elem_of_In, Hfit in Hc. unfold cell_fits in Hc.
  rewrite !andb_true_iff, Z.ltb_lt in Hc. lia.
Qed.

Lemma catalog_layout_state (p : layout) : catalog_layout p -> rotation_state p.
Proof.
  intros (k & r & Hp).
  destruct (TETROMINOES_states k) as [_ Hall].
  by eapply (Forall_lookup_1 _ _ _ _ Hall).
Qed.

(** Every cell of a catalog layout has a row offset [py >= 0], so no
    catalog layout fits at [y >= BOARD_HEIGHT]. *)
Lemma catalog_layout_floor (b : grid) (x y : Z) (p : layout) :
  catalog_layout p -> BOARD_HEIGHT <= y -> fits b x y p = false.
Proof.
  intros Hp Hy. destruct (catalog_layout_state p Hp) as (Hlen & _ & Hframe).
  destruct p as [| c p']; [done |].
  apply (fits_floor b x y (c :: p') c); [by left |].
  apply Forall_cons_1 in Hframe as [[_ Hc] _]. lia.
Qed.

Lemma lands_exists (b : grid) (x : Z) (p : layout) :
  (forall y, BOARD_HEIGHT <= y -> fits b x y p = false) ->
  forall (n : nat) (y : Z), Z.max 0 (BOARD_HEIGHT - 1 - y) <= Z.of_nat n ->
    exists d : nat, lands b x y p d /\ Z.of_nat d <= Z.max 0 (BOARD_HEIGHT - 1 - y).
Proof.
  intros Hfloor. induction n as [| n IH]; intros y Hn.
  - exists 0%nat. split; [| lia]. split; [lia |].
    apply Hfloor. lia.
  - destruct (fits b x (y + 1) p) eqn:Hfit.
    + assert (y + 1 < BOARD_HEIGHT).
      { destruct (Z_lt_le_dec (y + 1) BOARD_HEIGHT) as [? | Hge]; [done |].
        rewrite (Hfloor _ Hge) in Hfit. discriminate. }
      destruct (IH (y + 1) ltac:(lia)) as (d & [Hd1 Hd2] & Hbound).
      exists (S d). split; [| lia]. split.
      * intros i Hi. destruct (decide (i = 1%nat)) as [-> | Hne]; [done |].
        replace (y + Z.of_nat i) with (y + 1 + Z.of_nat (i - 1)) by lia.
        apply Hd1. lia.
      * replace (y + Z.of_nat (S d) + 1) with (y + 1 + Z.of_nat d + 1) by lia. done.
    + exists 0%nat. split; [| lia]. split; [lia |].
      by rewrite Z.add_0_r.
Qed.

Lemma lands_S (b : grid) (x y : Z) (p : layout) (d : nat) :
  lands b x y p (S d) -> fits b x (y + 1) p = true /\ lands b x (y + 1) p d.
Proof.
  intros [H1 H2]. split; [apply (H1 1%nat); lia |]. split.
  - intros i Hi. replace (y + 1 + Z.of_nat i) with (y + Z.of_nat (S i)) by lia.
    apply H1. lia.
  - replace (y + 1 + Z.of_nat d + 1) with (y + Z.of_nat (S d) + 1) by lia. done.
Qed.

Lemma lands_0 (b : grid) (x y : Z) (p : layout) :
  lands b x y p 0 -> fits b x (y + 1) p = false.
Proof. intros [_ H]. by rewrite Z.add_0_r in H. Qed.

Lemma lands_falls (p : layout) (d : nat) :
  forall s : Tetris,
    wf_board (board s) -> current_piece s = Some p ->
    lands (board s) (current_x s) (current_y s) p d ->
    falls d s (set_current_y (current_y s + Z.of_nat d) s).
Proof.
  induction d as [| d IH]; intros s Hwf Hp Hl.
  - replace (set_current_y _ s) with s
      by (destruct s; cbn; by rewrite Z.add_0_r).
    apply falls_stop. rewrite (move_down s p Hwf Hp). by rewrite (lands_0 _ _ _ _ Hl).
  - apply lands_S in Hl as [Hfit Hl].
    apply (falls_step d s (set_current_y (current_y s + 1) s)).
    + rewrite (move_down s p Hwf Hp). by rewrite Hfit.
    + replace (set_current_y (current_y s + Z.of_nat (S d)) s)
        with (set_current_y (current_y (set_current_y (current_y s + 1) s) + Z.of_nat d)
                (set_current_y (current_y s + 1) s)).
      * by apply IH.
      * assert (E : current_y s + 1 + Z.of_nat d = current_y s + Z.of_nat (S d)) by lia.
        destruct s; cbn [set_current_y current_y] in *. by rewrite E.
Qed.

Lemma hard_drop_loop_falls (d : nat) (s s' : Tetris) :
  falls d s s' ->
  forall (fuel : nat) (acc : Z), (d < fuel)%nat ->
    hard_drop_loop fuel acc s = Ret (acc + Z.of_nat d, s').
Proof.
  induction 1 as [s Hm | d s s1 s' Hm _ IH]; intros fuel acc Hfuel.
  - destruct fuel as [| fuel]; [lia |].
    cbn [hard_drop_loop]. unfold bind. rewrite Hm. cbn. by rewrite Z.add_0_r.
  - destruct fuel as [| fuel]; [lia |].
    cbn [hard_drop_loop]. unfold bind. rewrite Hm.
    rewrite IH by lia. do 2 f_equal. lia.
Qed.

Lemma get_ghost_y_loop_lands (s : Tetris) (p : layout) :
  wf_board (board s) -> current_piece s = Some p ->
  forall (d fuel : nat) (gy : Z),
    lands (board s) (current_x s) gy p d -> (d < fuel)%nat ->
    get_ghost_y_loop fuel gy s = Ret (gy + Z.of_nat d, s).
Proof.
  intros Hwf Hp. induction d as [| d IH]; intros fuel gy Hl Hfuel.
  - destruct fuel as [| fuel]; [lia |].
    cbn [get_ghost_y_loop]. unfold bind, gets. rewrite Hp. cbn [not_none ret].
    rewrite is_valid_position_fits by done.
    rewrite (lands_0 _ _ _ _ Hl). by rewrite Z.add_0_r.
  - destruct fuel as [| fuel]; [lia |].
    apply lands_S in Hl as [Hfit Hl].
    cbn [get_ghost_y_loop]. unfold bind, gets. rewrite Hp. cbn [not_none ret].
    rewrite is_valid_position_fits by done. rewrite Hfit.
    rewrite (IH fuel (gy + 1) Hl) by lia. do 2 f_equal. lia.
Qed.

Lemma catalog_lands (s : Tetris) (p : layout) :
  catalog_layout p ->
  exists d : nat,
    lands (board s) (current_x s) (current_y s) p d /\
    Z.of_nat d <= Z.max 0 (BOARD_HEIGHT - 1 - current_y s).
Proof.
  intros Hcat.
  apply (lands_exists (board s) (current_x s) p
           (fun y => catalog_layout_floor (board s) (current_x s) y p Hcat)
           (Z.to_nat (Z.max 0 (BOARD_HEIGHT - 1 - current_y s)))).
  lia.
Qed.

(** ** Clearing lines *)

Lemma clear_lines_scan_complete (rest : grid) :
  forall (pre : grid) (acc : list Z) (s : Tetris),
    board s = pre ++ rest ->
    clear_lines_scan (map Z.of_nat (seq (length pre) (length rest))) acc s =
      Ret (acc ++ complete_rows_from (length pre) rest, s).
Proof.
  induction rest as [| r rest IH]; intros pre acc s Hb.
  - cbn. by rewrite app_nil_r.
  - cbn [length seq map clear_lines_scan complete_rows_from].
    unfold bind at 1, gets. unfold bind at 1.
    rewrite (getitem_lookup (board s) (Z.of_nat (length pre)) r);
      [| lia | rewrite Hb, Nat2Z.id; by apply list_lookup_middle].
    cbn [lift].
    specialize (IH (pre ++ [r])). rewrite length_app, Nat.add_1_r in IH.
    destruct (row_complete r).
    + rewrite IH by (by rewrite <- app_assoc). by rewrite <- app_assoc.
    + by rewrite IH by (by rewrite <- app_assoc).
Qed.

Lemma set_board_set_board (b b' : grid) (s : Tetris) :
  set_board b (set_board b' s) = set_board b s.
Proof. done. Qed.

Lemma set_board_id (s : Tetris) : set_board (board s) s = s.
Proof. by destruct s. Qed.

Lemma clear_lines_delete_compact (rest : grid) :
  forall (pre : grid) (s : Tetris),
    board s = pre ++ rest ->
    clear_lines_delete (complete_rows_from (length pre) rest) s =
      Ret (tt, set_board (replicate (completed rest) empty_row ++ pre ++ remaining rest) s).
Proof.
  induction rest as [| r rest IH]; intros pre s Hb.
  - cbn. rewrite <- Hb. by rewrite set_board_id.
  - unfold completed, remaining in *.
    cbn [complete_rows_from List.filter]. destruct (row_complete r) eqn:Hr.
    + cbn [clear_lines_delete negb length].
      unfold bind at 1, gets. unfold bind at 1.
      rewrite delitem_nonneg by (rewrite Hb, length_app; cbn [length]; lia).
      rewrite Hb, Nat2Z.id, delete_middle. cbn [lift].
      unfold bind at 1, modify.
      rewrite (IH (empty_row :: pre)) by done.
      rewrite set_board_set_board. do 3 f_equal.
      cbn [replicate]. rewrite replicate_cons_app. by rewrite <- app_assoc.
    + cbn [negb].
      specialize (IH (pre ++ [r]) s). rewrite length_app, Nat.add_1_r in IH.
      rewrite IH by (by rewrite <- app_assoc). by rewrite <- app_assoc.
Qed.

Lemma length_complete_rows_from (rows : grid) (i : nat) :
  length (complete_rows_from i rows) = completed rows.
Proof.
  unfold completed. revert i. induction rows as [| r rows IH]; intros i; [done |].
  cbn. destruct (row_complete r); cbn; by rewrite IH.
Qed.

Lemma points_reward (n : Z) : 0 < n -> default 800 (points n) = reward n.
Proof.
  intros Hn. unfold points, reward.
  repeat (destruct (_ =? _); [done |]). done.
Qed.

(** On a Playfield, [clear_lines] raises nothing, returns [None] and
    leaves the state [cleared]. *)
Lemma clear_lines_cleared (s : Tetris) :
  wf_board (board s) -> clear_lines s = Ret (VNone, cleared s).
Proof.
  intros [Hlen _]. unfold clear_lines, range.
  rewrite <- Hlen.
  pose proof (clear_lines_scan_complete (board s) [] [] s eq_refl) as Hscan.
  pose proof (clear_lines_delete_compact (board s) [] s eq_refl) as Hdel.
  cbn [length app] in Hscan, Hdel.
  unfold bind at 1. rewrite Hscan.
  unfold bind at 1. rewrite Hdel.
  rewrite length_complete_rows_from.
  unfold cleared, compacted. cbn [board set_board].
  destruct (Z.of_nat (completed (board s)) >? 0) eqn:Hn.
  - rewrite <- (points_reward (Z.of_nat (completed (board s)))) by lia. done.
  - done.
Qed.

Lemma wf_board_compacted (b : grid) : wf_board b -> wf_board (compacted b).
Proof.
  intros [Hlen Hrows]. unfold compacted, completed, remaining. split.
  - rewrite length_app, length_replicate, <- Hlen.
    clear. induction b as [| r b IH]; [done |].
    cbn. destruct (row_complete r); cbn; lia.
  - apply Forall_app. split.
    + by apply Forall_replicate.
    + clear Hlen. induction Hrows as [| r b Hr _ IH]; [constructor |].
      cbn. destruct (row_complete r); cbn; [done | by constructor].
Qed.

(** C6. When a call of [clear_lines] removes [n >= 1] complete lines,
    the score grows by exactly 100, 300, 500 or 800 points for
    [n] = 1, 2, 3, 4 (800 as well for [n > 4]) times the level before
    the call, the total of lines cleared grows by [n], and afterwards
    the level is [lines_cleared // 10 + 1].  Four lines at level 3 add
    exactly 2400 points. *)
Theorem clear_lines_score (s : Tetris) :
  wf_board (board s) ->
  let n := Z.of_nat (completed (board s)) in
  1 <= n ->
  exists s' : Tetris,
    clear_lines s = Ret (VNone, s') /\
    score s' = score s + reward n * level s /\
    (n = 1 -> score s' = score s + 100 * level s) /\
    (n = 2 -> score s' = score s + 300 * level s) /\
    (n = 3 -> score s' = score s + 500 * level s) /\
    (4 <= n -> score s' = score s + 800 * level s) /\
    lines_cleared s' = lines_cleared s + n /\
    level s' = lines_cleared s' / 10 + 1 /\
    (n = 4 -> level s = 3 -> score s' = score s + 2400).
Proof.
  intros Hwf n Hn. exists (cleared s).
  split; [by apply clear_lines_cleared |].
  unfold cleared. fold n.
  replace (n >? 0) with true by (symmetry; apply Z.gtb_lt; lia).
  cbn [score level lines_cleared set_level set_score set_lines_cleared set_board].
  repeat split; try done.
  - by intros ->.
  - by intros ->.
  - by intros ->.
  - intros H4. unfold reward.
    destruct (Z.eqb_spec n 1); [lia |].
    destruct (Z.eqb_spec n 2); [lia |].
    destruct (Z.eqb_spec n 3); [lia |]. done.
  - intros -> ->. done.
Qed.

Lemma completed_remaining_cons (r : row) (b : grid) :
  (row_complete r = true ->
   completed (r :: b) = S (completed b) /\ remaining (r :: b) = remaining b) /\
  (row_complete r = false ->
   completed (r :: b) = completed b /\ remaining (r :: b) = r :: remaining b).
Proof.
  unfold completed, remaining. cbn [List.filter].
  split; intros ->; by split.
Qed.

Lemma compacted_rows_5_and_7 (b : grid) :
  length b = 20%nat -> rows_5_and_7_complete b ->
  completed b = 2%nat /\
  compacted b =
    [empty_row; empty_row] ++ take 5 b ++ take 1 (drop 6 b) ++ drop 8 b.
Proof.
  intros Hlen H.
  do 20 (destruct b as [| ? b]; [discriminate Hlen |]).
  destruct b; [| discriminate Hlen]. clear Hlen.
  pose proof (H 0%nat _ eq_refl). pose proof (H 1%nat _ eq_refl).
  pose proof (H 2%nat _ eq_refl). pose proof (H 3%nat _ eq_refl).
  pose proof (H 4%nat _ eq_refl). pose proof (H 5%nat _ eq_refl).
  pose proof (H 6%nat _ eq_refl). pose proof (H 7%nat _ eq_refl).
  pose proof (H 8%nat _ eq_refl). pose proof (H 9%nat _ eq_refl).
  pose proof (H 10%nat _ eq_refl). pose proof (H 11%nat _ eq_refl).
  pose proof (H 12%nat _ eq_refl). pose proof (H 13%nat _ eq_refl).
  pose proof (H 14%nat _ eq_refl). pose proof (H 15%nat _ eq_refl).
  pose proof (H 16%nat _ eq_refl). pose proof (H 17%nat _ eq_refl).
  pose proof (H 18%nat _ eq_refl). pose proof (H 19%nat _ eq_refl).
  clear H.
  repeat match goal with
  | Hi : row_complete ?r = true <-> _ |- _ =>
      first
        [ assert (row_complete r = true) by (apply Hi; lia)
        | assert (row_complete r = false)
            by (apply not_true_is_false; intros E; apply Hi in E; lia) ];
      clear Hi
  end.
  unfold compacted.
  repeat match goal with
  | |- context [completed (?r :: ?l)] =>
      match goal with
      | Hi : row_complete r = true |- _ =>
          rewrite (proj1 (proj1 (completed_remaining_cons r l) Hi))
      | Hi : row_complete r = false |- _ =>
          rewrite (proj1 (proj2 (completed_remaining_cons r l) Hi))
      end
  | |- context [remaining (?r :: ?l)] =>
      match goal with
      | Hi : row_complete r = true |- _ =>
          rewrite (proj2 (proj1 (completed_remaining_cons r l) Hi))
      | Hi : row_complete r = false |- _ =>
          rewrite (proj2 (proj2 (completed_remaining_cons r l) Hi))
      end
  end.
  done.
Qed.

(** C1 (amended). On every Playfield, [clear_lines] removes exactly the
    rows in which all 10 cells are occupied, all in one call: the new
    board is as many empty rows as were removed followed by the other
    rows in their old order.  The call returns [None]; the number of
    rows removed is added to [lines_cleared].  When rows 5 and 7 are
    the only complete rows, [lines_cleared] grows by 2 and the new
    board is two empty rows, then rows 0-4, row 6 and rows 8-19. *)
Theorem clear_lines_compacts (s : Tetris) :
  wf_board (board s) ->
  exists s' : Tetris,
    clear_lines s = Ret (VNone, s') /\
    board s' = replicate (completed (board s)) empty_row ++ remaining (board s) /\
    lines_cleared s' = lines_cleared s + Z.of_nat (completed (board s)) /\
    wf_board (board s') /\
    (rows_5_and_7_complete (board s) ->
     lines_cleared s' = lines_cleared s + 2 /\
     board s' = [empty_row; empty_row] ++ take 5 (board s) ++
                take 1 (drop 6 (board s)) ++ drop 8 (board s)).
Proof.
  intros Hwf. exists (cleared s).
  split; [by apply clear_lines_cleared |].
  assert (Hb : board (cleared s) = compacted (board s)).
  { unfold cleared. by destruct (_ >? 0). }
  assert (Hl : lines_cleared (cleared s) =
               lines_cleared s + Z.of_nat (completed (board s))).
  { unfold cleared. destruct (Z.gtb_spec (Z.of_nat (completed (board s))) 0); cbn; lia. }
  repeat split.
  - by rewrite Hb.
  - exact Hl.
  - rewrite Hb. apply (wf_board_compacted _ Hwf).
  - rewrite Hb. apply (wf_board_compacted _ Hwf).
  - rewrite Hl.
    destruct (compacted_rows_5_and_7 (board s)) as [-> _]; [apply Hwf | done | done].
  - rewrite Hb.
    destruct (compacted_rows_5_and_7 (board s)) as [_ ->]; [apply Hwf | done | done].
Qed.

(** ** The bag *)

Lemma pop_snoc {A : Type} (l : list A) (a : A) : pop (l ++ [a]) = Ret (a, l).
Proof.
  unfold pop. rewrite length_app, Nat.add_1_r. cbn [length Nat.sub].
  rewrite Nat.sub_0_r, list_lookup_middle by done.
  by rewrite take_app_length.
Qed.

Section RandomizedProperties.

Variable shuffle : nat -> list Kind -> list Kind.

(** [random.shuffle] permutes the list of kinds it is given. *)
Hypothesis shuffle_perm :
  forall n : nat, shuffle n TETROMINOES_keys ≡ₚ TETROMINOES_keys.

Lemma get_next_piece_type_pop (s : Tetris) (b : list Kind) (k : Kind) :
  bag s = b ++ [k] ->
  get_next_piece_type shuffle s = Ret (k, set_bag b s).
Proof.
  intros Hb. unfold get_next_piece_type, bind, gets. rewrite Hb.
  rewrite bool_decide_eq_false_2 by (by destruct b).
  cbn [ret]. rewrite ?Hb, pop_snoc. cbn [lift]. by destruct s.
Qed.

Lemma shuffle_keys_snoc (n : nat) :
  exists (b : list Kind) (k : Kind),
    shuffle n TETROMINOES_keys = b ++ [k] /\ length b = 6%nat.
Proof.
  pose proof (Permutation_length (shuffle_perm n)) as Hlen.
  destruct (shuffle n TETROMINOES_keys) as [| k0 l] using rev_ind; [done |].
  exists l, k0. split; [done |].
  rewrite length_app in Hlen. cbn in Hlen. lia.
Qed.

Lemma get_next_piece_type_refill (s : Tetris) :
  bag s = [] ->
  exists (b : list Kind) (k : Kind),
    shuffle (shuffles s) TETROMINOES_keys = b ++ [k] /\
    get_next_piece_type shuffle s =
      Ret (k, set_bag b (set_shuffles (S (shuffles s)) s)).
Proof.
  intros Hb. destruct (shuffle_keys_snoc (shuffles s)) as (b & k & Hs & _).
  exists b, k. split; [done |].
  unfold get_next_piece_type, bind, gets, modify. rewrite Hb.
  rewrite bool_decide_eq_true_2 by done.
  cbn [bag set_bag set_shuffles]. rewrite Hs, pop_snoc. cbn [lift]. by destruct s.
Qed.

(** A draw returns, and touches nothing but the bag and the generator. *)
Lemma get_next_piece_type_frame (s : Tetris) :
  exists (k : Kind) (b : list Kind) (n : nat),
    get_next_piece_type shuffle s = Ret (k, set_bag b (set_shuffles n s)).
Proof.
  destruct (bag s) as [| k0 l] eqn:Hb using rev_ind.
  - destruct (get_next_piece_type_refill s Hb) as (b & k & _ & H). eauto.
  - exists k0, l, (shuffles s).
    rewrite (get_next_piece_type_pop s l k0 Hb). by destruct s.
Qed.

Lemma draws_bag (b : list Kind) :
  forall s : Tetris,
    bag s = b ->
    draws shuffle (length b) s = Ret (reverse b, set_bag [] s).
Proof.
  induction b as [| k b IH] using rev_ind; intros s Hb.
  - cbn. rewrite <- Hb. by destruct s.
  - rewrite length_app, Nat.add_1_r. cbn [draws]. unfold bind at 1.
    rewrite (get_next_piece_type_pop s b k Hb).
    unfold bind at 1. rewrite (IH (set_bag b s)) by done.
    cbn [ret]. by rewrite reverse_snoc.
Qed.

Lemma TETROMINOES_keys_all (k : Kind) : k ∈ TETROMINOES_keys.
Proof. unfold TETROMINOES_keys. destruct k; repeat constructor. Qed.

Lemma TETROMINOES_keys_NoDup : NoDup TETROMINOES_keys.
Proof. apply (bool_decide_unpack _). vm_compute. reflexivity. Qed.

(** C7. Whatever [random.shuffle] does, when the bag is empty the next
    draw refills it with a permutation of the 7 kinds, and the 7 draws
    that start there return each kind exactly once; they leave the bag
    empty, so the draw after them starts such a window again. *)
Theorem bag_window (s : Tetris) :
  bag s = [] ->
  (exists (k1 : Kind) (s1 : Tetris),
     get_next_piece_type shuffle s = Ret (k1, s1) /\
     bag s1 ++ [k1] ≡ₚ TETROMINOES_keys) /\
  (exists (ks : list Kind) (s' : Tetris),
     draws shuffle 7 s = Ret (ks, s') /\
     ks ≡ₚ TETROMINOES_keys /\
     NoDup ks /\ (forall k : Kind, k ∈ ks) /\ length ks = 7%nat /\
     bag s' = []).
Proof.
  intros Hb.
  destruct (get_next_piece_type_refill s Hb) as (b & k & Hs & Hdraw).
  pose proof (shuffle_perm (shuffles s)) as Hperm.
  rewrite Hs in Hperm.
  pose proof (Permutation_length Hperm) as Hlen.
  rewrite length_app, Nat.add_1_r in Hlen. cbn in Hlen.
  split.
  - exists k, (set_bag b (set_shuffles (S (shuffles s)) s)). by split.
  - exists (k :: reverse b), (set_bag [] (set_shuffles (S (shuffles s)) s)).
    assert (Hks : k :: reverse b ≡ₚ TETROMINOES_keys).
    { rewrite <- Hperm, reverse_Permutation. by rewrite Permutation_app_comm. }
    split.
    { replace 7%nat with (S (length b)) by lia.
      cbn [draws]. unfold bind at 1. rewrite Hdraw.
      unfold bind at 1.
      by rewrite (draws_bag b (set_bag b (set_shuffles (S (shuffles s)) s))). }
    split; [exact Hks |].
    split; [rewrite Hks; apply TETROMINOES_keys_NoDup |].
    split; [intros k'; rewrite Hks; apply TETROMINOES_keys_all |].
    split; [by rewrite Hks |].
    done.
Qed.

(** ** Spawning *)

Lemma TETROMINOES_spawn (k : Kind) :
  exists p, TETROMINOES k !! 0%nat = Some p /\ getitem (TETROMINOES k) 0 = Ret p.
Proof. destruct k; eexists; by split. Qed.

Lemma spawn_piece_spawned (s : Tetris) :
  wf_board (board s) ->
  exists (k k' : Kind) (p : layout) (b : list Kind) (n : nat),
    (forall k0, next_type s = Some k0 -> k = k0) /\
    TETROMINOES k !! 0%nat = Some p /\
    spawn_piece shuffle s = Ret (VNone, spawned k k' p b n s).
Proof.
  intros Hwf.
  assert (Hfirst : exists (k : Kind) (b : list Kind) (n : nat),
            (forall k0, next_type s = Some k0 -> k = k0) /\
            (match next_type s with
             | Some k => modify (set_current_type (Some k))
             | None => let! k := get_next_piece_type shuffle in
                       modify (set_current_type (Some k))
             end) s = Ret (tt, set_current_type (Some k) (set_bag b (set_shuffles n s)))).
  { destruct (next_type s) as [k0 |] eqn:Hnt.
    - exists k0, (bag s), (shuffles s). split; [by intros ? [= ->] |].
      unfold modify. by destruct s.
    - destruct (get_next_piece_type_frame s) as (k & b & n & Hdraw).
      exists k, b, n. split; [done |].
      unfold bind. by rewrite Hdraw. }
  destruct Hfirst as (k & b & n & Hk & Hfirst).
  set (s1 := set_current_type (Some k) (set_bag b (set_shuffles n s))) in *.
  destruct (get_next_piece_type_frame s1) as (k' & b' & n' & Hdraw).
  destruct (TETROMINOES_spawn k) as (p & Hp & Hget).
  exists k, k', p, b', n'. split; [done |]. split; [done |].
  unfold spawn_piece. unfold bind at 1. unfold gets at 1.
  unfold bind at 1. rewrite Hfirst.
  unfold bind at 1. rewrite Hdraw.
  unfold bind, gets, modify. cbn [current_type set_current_type set_bag set_shuffles
    set_next_type set_current_rotation s1 not_none ret].
  rewrite Hget. cbn [lift current_piece set_current_piece set_current_x set_current_y
    current_x current_y not_none ret].
  rewrite is_valid_position_fits by done.
  cbn [board]. unfold spawned.
  change (BOARD_WIDTH / 2 - 2) with 3. subst s1.
  cbn [board set_current_y set_current_x set_current_piece set_current_rotation
       set_next_type set_bag set_shuffles set_current_type].
  destruct (fits (board s) 3 0 p); by destruct s.
Qed.

(** A draw does not look at the kind of the active piece. *)
Lemma get_next_piece_type_set_current_type (s : Tetris) (c : option Kind) :
  get_next_piece_type shuffle (set_current_type c s) =
    match get_next_piece_type shuffle s with
    | Ret (k, s') => Ret (k, set_current_type c s')
    | Raise e => Raise e
    | OutOfFuel => OutOfFuel
    end.
Proof.
  destruct (bag s) as [| k0 l] eqn:Hb using rev_ind.
  - destruct (get_next_piece_type_refill s Hb) as (b & k & Hs & ->).
    destruct (get_next_piece_type_refill (set_current_type c s) Hb)
      as (b' & k' & Hs' & ->).
    change (shuffles (set_current_type c s)) with (shuffles s) in *.
    rewrite Hs in Hs'. apply app_inj_tail in Hs' as [-> ->]. by destruct s.
  - rewrite (get_next_piece_type_pop s l k0 Hb).
    rewrite (get_next_piece_type_pop (set_current_type c s) l k0 Hb).
    by destruct s.
Qed.

(** The draws of [spawn_piece]: one for the new next kind and, when no
    kind is previewed, one before it for the active piece. *)
Lemma spawn_piece_drawn (s : Tetris) :
  wf_board (board s) ->
  exists (k k' : Kind) (p : layout) (s1 : Tetris) (b : list Kind) (n : nat),
    (forall k0, next_type s = Some k0 -> k = k0 /\ s1 = s) /\
    (next_type s = None -> get_next_piece_type shuffle s = Ret (k, s1)) /\
    get_next_piece_type shuffle s1 = Ret (k', set_bag b (set_shuffles n s1)) /\
    TETROMINOES k !! 0%nat = Some p /\
    spawn_piece shuffle s = Ret (VNone, spawned k k' p b n s).
Proof.
  intros Hwf.
  assert (Hfirst : exists (k : Kind) (s1 : Tetris),
            (forall k0, next_type s = Some k0 -> k = k0 /\ s1 = s) /\
            (next_type s = None -> get_next_piece_type shuffle s = Ret (k, s1)) /\
            board s1 = board s /\ score s1 = score s /\ level s1 = level s /\
            lines_cleared s1 = lines_cleared s /\ game_over s1 = game_over s /\
            paused s1 = paused s /\
            (match next_type s with
             | Some k => modify (set_current_type (Some k))
             | None => let! k := get_next_piece_type shuffle in
                       modify (set_current_type (Some k))
             end) s = Ret (tt, set_current_type (Some k) s1)).
  { destruct (next_type s) as [k0 |] eqn:Hnt.
    - exists k0, s. split; [by intros ? [= ->] |]. by repeat split.
    - destruct (get_next_piece_type_frame s) as (k & b & n & Hdraw).
      exists k, (set_bag b (set_shuffles n s)). split; [done |].
      split; [done |]. do 6 (split; [reflexivity |]).
      unfold bind. by rewrite Hdraw. }
  destruct Hfirst as (k & s1 & Hsome & Hnone & Hb1 & Hsc1 & Hlv1 & Hlc1 & Hgo1 & Hpa1
                      & Hfirst).
  destruct (get_next_piece_type_frame s1) as (k' & b' & n' & Hdraw).
  destruct (TETROMINOES_spawn k) as (p & Hp & Hget).
  exists k, k', p, s1, b', n'.
  split; [exact Hsome |]. split; [exact Hnone |]. split; [exact Hdraw |].
  split; [exact Hp |].
  unfold spawn_piece. unfold bind at 1. unfold gets at 1.
  unfold bind at 1. rewrite Hfirst.
  unfold bind at 1. rewrite get_next_piece_type_set_current_type, Hdraw.
  unfold bind, gets, modify. cbn [current_type set_current_type set_bag set_shuffles
    set_next_type set_current_rotation not_none ret].
  rewrite Hget. cbn [lift current_piece set_current_piece set_current_x set_current_y
    current_x current_y not_none ret].
  rewrite is_valid_position_fits
    by (cbn [board set_current_y set_current_x set_current_piece set_current_rotation
               set_next_type set_bag set_shuffles set_current_type];
        by rewrite Hb1).
  cbn [board]. unfold spawned.
  change (BOARD_WIDTH / 2 - 2) with 3.
  cbn [board set_current_y set_current_x set_current_piece set_current_rotation
       set_next_type set_bag set_shuffles set_current_type].
  rewrite Hb1.
  destruct (fits (board s) 3 0 p); destruct s1; cbn in *; by subst.
Qed.

(** C2 (amended). On every Playfield, [spawn_piece] returns.  It makes
    the next kind (the previewed one, when there is one) the active
    piece: kind, rotation 0, layout of rotation 0, offset
    [(BOARD_WIDTH // 2 - 2, 0) = (3, 0)], and draws a new next kind from
    the bag: with a kind previewed, the new next kind and the bag
    afterwards are those of one [get_next_piece_type] on the state
    before, so the kind is the last element of the bag, which loses it,
    or of a fresh shuffle of the seven kinds when the bag was empty;
    with no kind previewed the active kind is drawn first in the same
    way.  The call modifies no cell of the Playfield and no score.
    When that spawn position is invalid against the Playfield,
    [game_over] is [True] afterwards; the active-piece attributes hold
    the new piece all the same. *)
Theorem spawn_piece_game_over (s : Tetris) :
  wf_board (board s) ->
  exists (k k' : Kind) (p : layout) (s' : Tetris),
    spawn_piece shuffle s = Ret (VNone, s') /\
    (forall k0, next_type s = Some k0 -> k = k0) /\
    TETROMINOES k !! 0%nat = Some p /\
    current_type s' = Some k /\ current_piece s' = Some p /\
    current_rotation s' = 0 /\
    current_x s' = BOARD_WIDTH / 2 - 2 /\ current_y s' = 0 /\
    next_type s' = Some k' /\
    board s' = board s /\
    score s' = score s /\ level s' = level s /\
    lines_cleared s' = lines_cleared s /\
    (is_valid_position (BOARD_WIDTH / 2 - 2) 0 p s = Ret (false, s) ->
     game_over s' = true) /\
    (is_valid_position (BOARD_WIDTH / 2 - 2) 0 p s = Ret (true, s) ->
     game_over s' = game_over s) /\
    (is_Some (next_type s) ->
     get_next_piece_type shuffle s =
       Ret (k', set_bag (bag s') (set_shuffles (shuffles s') s)) /\
     (bag s <> [] -> bag s = bag s' ++ [k'] /\ shuffles s' = shuffles s) /\
     (bag s = [] ->
      shuffle (shuffles s) TETROMINOES_keys = bag s' ++ [k'] /\
      shuffles s' = S (shuffles s))) /\
    (next_type s = None ->
     exists s1 : Tetris,
       get_next_piece_type shuffle s = Ret (k, s1) /\
       get_next_piece_type shuffle s1 =
         Ret (k', set_bag (bag s') (set_shuffles (shuffles s') s1))).
Proof.
  intros Hwf.
  destruct (spawn_piece_drawn s Hwf)
    as (k & k' & p & s1 & b & n & Hsome & Hnone & Hdraw & Hp & Hspawn).
  exists k, k', p, (spawned k k' p b n s).
  change (BOARD_WIDTH / 2 - 2) with 3.
  rewrite is_valid_position_fits by done.
  split; [exact Hspawn |].
  split; [intros k0 Hk0; by destruct (Hsome k0 Hk0) |].
  split; [exact Hp |].
  do 10 (split; [reflexivity |]).
  split; [intros [= Hfit]; cbn; by rewrite Hfit |].
  split; [intros [= Hfit]; cbn; by rewrite Hfit |].
  cbn [bag shuffles spawned].
  split.
  - intros [k0 Hk0]. destruct (Hsome k0 Hk0) as [_ ->].
    split; [exact Hdraw |].
    split.
    + intros Hne. destruct (bag s) as [| x l] eqn:Hb using rev_ind; [done |].
      rewrite (get_next_piece_type_pop s l x Hb) in Hdraw.
      injection Hdraw as -> -> <-. by split.
    + intros He. destruct (get_next_piece_type_refill s He) as (b0 & x & Hs & Hd).
      rewrite Hd in Hdraw. injection Hdraw as -> -> <-. by split.
  - intros Hn. exists s1. split; [by apply Hnone | exact Hdraw].
Qed.

(** ** Hard drop *)

Lemma hard_drop_falls (s s' : Tetris) (d fuel : nat) :
  falls d s s' -> (d < fuel)%nat ->
  hard_drop shuffle fuel s =
    (lock_piece shuffle >> ret VNone) (set_score (score s' + 2 * Z.of_nat d) s').
Proof.
  intros Hfalls Hfuel. unfold hard_drop. unfold bind at 1.
  rewrite (hard_drop_loop_falls d s s' Hfalls fuel 0 Hfuel).
  unfold bind at 1, modify. do 2 f_equal. lia.
Qed.

Lemma falls_score (d : nat) (s s' : Tetris) :
  wf_board (board s) -> falls d s s' -> score s' = score s.
Proof.
  intros Hwf. induction 1 as [s Hm | d s s1 s' Hm _ IH]; [done |].
  unfold move, bind, gets in Hm.
  destruct (current_piece s) as [p |]; [| done]. cbn [not_none ret] in Hm.
  rewrite is_valid_position_fits in Hm by done.
  destruct (fits _ _ _ _); [| done].
  injection Hm as <-. by rewrite IH.
Qed.

(** C5. [hard_drop] applies [move(0, 1)] until it fails; with [d] the
    number of successful steps, it adds exactly [2 * d] to the score and
    then locks the piece (the rest of the call is [lock_piece] run on
    the dropped state with the new score).  Hard-dropping an O piece
    from its spawn position on the empty board adds [2 * 18 = 36] to
    the score and locks the piece in the bottom two rows, and no line
    is cleared. *)
Theorem hard_drop_awards_twice_distance :
  (forall (s : Tetris) (p : layout),
     wf_board (board s) -> current_piece s = Some p -> catalog_layout p ->
     exists (d : nat) (s1 : Tetris),
       falls d s s1 /\
       forall fuel : nat, (d < fuel)%nat ->
         hard_drop shuffle fuel s =
           (lock_piece shuffle >> ret VNone)
             (set_score (score s + 2 * Z.of_nat d) s1)) /\
  (forall s : Tetris,
     board s = empty_board ->
     current_type s = Some KO -> current_piece s = TETROMINOES KO !! 0%nat ->
     current_x s = BOARD_WIDTH / 2 - 2 -> current_y s = 0 ->
     forall fuel : nat, (18 < fuel)%nat ->
       exists s' : Tetris,
         hard_drop shuffle fuel s = Ret (VNone, s') /\
         score s' = score s + 36 /\
         lines_cleared s' = lines_cleared s /\
         board s' = replicate 18 empty_row ++ [O_row; O_row]).
Proof.
  split.
  - intros s p Hwf Hp Hcat.
    destruct (catalog_lands s p Hcat) as (d & Hlands & _).
    pose proof (lands_falls p d s Hwf Hp Hlands) as Hfalls.
    eexists d, _. split; [exact Hfalls |].
    intros fuel Hfuel. rewrite (hard_drop_falls _ _ d fuel Hfalls Hfuel).
    by rewrite (falls_score d _ _ Hwf Hfalls).
  - intros s Hb Ht Hp Hx Hy fuel Hfuel.
    change (BOARD_WIDTH / 2 - 2) with 3 in Hx. cbn in Hp.
    assert (Hwf : wf_board (board s)).
    { rewrite Hb. split; [done |]. by apply Forall_replicate. }
    assert (Hlands : lands (board s) (current_x s) (current_y s)
                       [(1, 0); (2, 0); (1, 1); (2, 1)] 18).
    { rewrite Hb, Hx, Hy. split; [| by vm_compute].
      intros i Hi. destruct i as [| i]; [lia |].
      do 18 (destruct i as [| i]; [by vm_compute |]). lia. }
    pose proof (lands_falls _ 18 s Hwf Hp Hlands) as Hfalls.
    rewrite (hard_drop_falls _ _ 18 fuel Hfalls Hfuel).
    destruct s as [b sc lv lc go pa bg cp ct cr cx cy nt sh].
    cbn in Hb, Ht, Hp, Hx, Hy. subst b ct cp cx cy.
    clear Hfalls Hlands Hwf.
    unfold lock_piece. simpl_state.
    unfold bind at 1. unfold bind at 1. unfold bind at 1.
    unfold gets at 1. simpl_state. cbn [not_none ret].
    unfold bind at 1.
    match goal with
    | |- context [lock_piece_cells ?p ?st] =>
        assert (Hcells : lock_piece_cells p st =
                  Ret (tt, set_board (replicate 18 empty_row ++ [O_row; O_row]) st))
          by (by vm_compute)
    end.
    rewrite Hcells. clear Hcells. simpl_state.
    unfold bind at 1. rewrite clear_lines_cleared
      by (split; [done | by apply (bool_decide_unpack _)]).
    match goal with
    | |- context [cleared ?st] =>
        assert (Hclr : cleared st = st) by (by vm_compute)
    end.
    rewrite Hclr. clear Hclr. unfold bind at 1.
    match goal with
    | |- context [spawn_piece shuffle ?st] =>
        destruct (spawn_piece_spawned st) as (k & k' & p & b & n & _ & _ & Hspawn);
          [split; [done | by apply (bool_decide_unpack _)] |]
    end.
    rewrite Hspawn.
    eexists. split; [reflexivity |].
    cbn. split; [lia |]. by split.
Qed.

End RandomizedProperties.

(** ** The ghost row and termination *)

Lemma get_ghost_y_lands (s : Tetris) (p : layout) (d fuel : nat) :
  wf_board (board s) -> current_piece s = Some p ->
  lands (board s) (current_x s) (current_y s) p d -> (d < fuel)%nat ->
  get_ghost_y fuel s = Ret (current_y s + Z.of_nat d, s).
Proof.
  intros Hwf Hp Hl Hfuel. unfold get_ghost_y, bind, gets.
  by apply (get_ghost_y_loop_lands s p Hwf Hp d fuel (current_y s)).
Qed.

(** C9 (amended). In every game state whose active piece is at a valid
    position, [get_ghost_y] returns the lowest row reachable by moving
    straight down: the largest [gy >= current_y] such that the piece
    placed at [(current_x, y)] is a valid position for every [y] from
    [current_y] to [gy].  The call leaves every attribute of the game
    state unchanged. *)
Theorem get_ghost_y_lowest (s : Tetris) (p : layout) :
  wf_board (board s) -> current_piece s = Some p -> catalog_layout p ->
  is_valid_position (current_x s) (current_y s) p s = Ret (true, s) ->
  exists gy : Z,
    (forall fuel : nat,
       Z.max 0 (BOARD_HEIGHT - 1 - current_y s) < Z.of_nat fuel ->
       get_ghost_y fuel s = Ret (gy, s)) /\
    current_y s <= gy /\
    (forall y, current_y s <= y <= gy ->
               is_valid_position (current_x s) y p s = Ret (true, s)) /\
    is_valid_position (current_x s) (gy + 1) p s = Ret (false, s) /\
    (forall y, current_y s <= y ->
               (forall y', current_y s <= y' <= y ->
                           is_valid_position (current_x s) y' p s = Ret (true, s)) ->
               y <= gy).
Proof.
  intros Hwf Hp Hcat Hcur.
  destruct (catalog_lands s p Hcat) as (d & Hlands & Hbound).
  exists (current_y s + Z.of_nat d).
  assert (Hbelow : is_valid_position (current_x s) (current_y s + Z.of_nat d + 1) p s
                   = Ret (false, s)).
  { rewrite is_valid_position_fits by done. destruct Hlands as [_ ->]. done. }
  repeat split.
  - intros fuel Hfuel. apply (get_ghost_y_lands s p d fuel); [done | done | done | lia].
  - lia.
  - intros y Hy. destruct (decide (y = current_y s)) as [-> | Hne]; [done |].
    rewrite is_valid_position_fits by done.
    destruct Hlands as [Hfit _].
    specialize (Hfit (Z.to_nat (y - current_y s)) ltac:(lia)).
    replace (current_y s + Z.of_nat (Z.to_nat (y - current_y s))) with y in Hfit by lia.
    by rewrite Hfit.
  - exact Hbelow.
  - intros y Hy Hall.
    destruct (Z_le_gt_dec y (current_y s + Z.of_nat d)) as [? | Hgt]; [done |].
    specialize (Hall (current_y s + Z.of_nat d + 1) ltac:(lia)). congruence.
Qed.

(** C10 (amended). Every cell of a catalog layout has a row offset
    [py >= 0], and [is_valid_position] returns [False] for a placement
    with a cell at [y + py >= 20].  So for a catalog piece the downward
    loops of [hard_drop] and [get_ghost_y] terminate: the number [d] of
    successful downward steps is at most [BOARD_HEIGHT - 1 - current_y]
    (none when that is negative), hence less than the board height
    when [current_y >= 0], and with more than [d] units of fuel both
    loops return, [d] and [current_y + d]. *)
Theorem downward_loops_terminate (s : Tetris) (p : layout) :
  wf_board (board s) -> current_piece s = Some p -> catalog_layout p ->
  Forall (fun c : cell => 0 <= c.2) p /\
  (forall (x y : Z) (c : cell),
     c ∈ p -> BOARD_HEIGHT <= y + c.2 ->
     is_valid_position x y p s = Ret (false, s)) /\
  exists (d : nat) (s' : Tetris),
    falls d s s' /\
    Z.of_nat d <= Z.max 0 (BOARD_HEIGHT - 1 - current_y s) /\
    (0 <= current_y s -> Z.of_nat d < BOARD_HEIGHT) /\
    forall fuel : nat, (d < fuel)%nat ->
      hard_drop_loop fuel 0 s = Ret (Z.of_nat d, s') /\
      get_ghost_y fuel s = Ret (current_y s + Z.of_nat d, s).
Proof.
  intros Hwf Hp Hcat. split; [| split].
  - destruct (catalog_layout_state p Hcat) as (_ & _ & Hframe).
    revert Hframe. apply Forall_impl. intros c [_ Hc]. lia.
  - intros x y c Hc Hy. rewrite is_valid_position_fits by done.
    by rewrite (fits_floor (board s) x y p c Hc Hy).
  - destruct (catalog_lands s p Hcat) as (d & Hlands & Hbound).
    pose proof (lands_falls p d s Hwf Hp Hlands) as Hfalls.
    eexists d, _. split; [exact Hfalls |].
    split; [exact Hbound |]. split; [unfold BOARD_HEIGHT in *; lia |].
    intros fuel Hfuel. split.
    + by rewrite (hard_drop_loop_falls d _ _ Hfalls fuel 0 Hfuel).
    + by apply (get_ghost_y_lands s p d fuel).
Qed.

(** * The scenarios, run *)

(** ** Where the scenario states come from *)

Lemma forced_shuffle_perm (n : nat) :
  forced_shuffle n TETROMINOES_keys ≡ₚ TETROMINOES_keys.
Proof.
  unfold forced_shuffle, forced_order, TETROMINOES_keys.
  apply Permutation_cons; [done |].
  change [KT; KS; KZ; KJ; KL; KO] with ([KT; KS; KZ; KJ; KL] ++ [KO]).
  apply Permutation_app_comm.
Qed.

Lemma wf_board_empty : wf_board empty_board.
Proof. split; [reflexivity | repeat constructor]. Qed.

Lemma wf_board_tower : wf_board tower_board.
Proof. split; [reflexivity | repeat constructor]. Qed.

Lemma wf_board_tower_locked : wf_board (board tower_locked).
Proof. split; [reflexivity | repeat constructor]. Qed.

Lemma wf_board_rows57 : wf_board rows57_board.
Proof. split; [reflexivity | repeat constructor]. Qed.

Lemma wf_board_kick : wf_board kick_board.
Proof. split; [reflexivity | repeat constructor]. Qed.

(** The constructor, with the forced bag order, gives [new_game_O]. *)
Lemma init_new_game_O : init forced_shuffle 0 = Ret (VNone, new_game_O).
Proof. by vm_compute. Qed.

(** Locking the O piece of [tower_game] ends the game in [tower_over];
    [spawn_piece] is called on [tower_locked]. *)
Lemma lock_piece_tower :
  lock_piece forced_shuffle tower_game = Ret (VNone, tower_over) /\
  (lock_piece_cells [(1, 0); (2, 0); (1, 1); (2, 1)] >> clear_lines) tower_game
    = Ret (VNone, tower_locked) /\
  spawn_piece forced_shuffle tower_locked = Ret (VNone, tower_over).
Proof. by vm_compute. Qed.

(** The keys of [climb] take the T piece from its spawn position to
    [kicked_game]; on the way three rotations are kicked one row up. *)
Lemma climb_kicked_game :
  is_valid_position 3 0 [(1, 0); (0, 1); (1, 1); (2, 1)] kick_start
    = Ret (true, kick_start) /\
  climb kick_start = Ret (true, kicked_game).
Proof. by vm_compute. Qed.

Lemma rows57_board_complete : rows_5_and_7_complete rows57_board.
Proof.
  intros i r Hr.
  do 20 (destruct i as [| i];
         [injection Hr as <-; vm_compute; split; [intros; lia || done | intros; lia || done] |]).
  done.
Qed.

(** ** Where the claims, as worded, and the code part *)

(** Counterexample to C1 as worded: on a board whose rows 5 and 7 are the only
    complete rows, the call of [clear_lines] does not return 2; it
    returns [None], as its body has no [return]. *)
Lemma clear_lines_returns_None :
  wf_board (board rows57_game) /\
  rows_5_and_7_complete (board rows57_game) /\
  (exists s' : Tetris, clear_lines rows57_game = Ret (VNone, s')) /\
  ~ (exists s' : Tetris, clear_lines rows57_game = Ret (VInt 2, s')).
Proof.
  split; [exact wf_board_rows57 |].
  split; [exact rows57_board_complete |].
  rewrite (clear_lines_cleared rows57_game wf_board_rows57).
  split; [by eexists |].
  intros [s' Hs']. discriminate Hs'.
Qed.

(** Counterexample to C2 as worded: in [tower_locked] the spawn position of the
    next piece (T) is invalid; [spawn_piece] sets [game_over] and
    leaves the board alone, but the active piece, an O before the call,
    is a new T piece after it. *)
Lemma spawn_piece_replaces_active_piece :
  wf_board (board tower_locked) /\
  next_type tower_locked = Some KT /\
  is_valid_position (BOARD_WIDTH / 2 - 2) 0 [(1, 0); (0, 1); (1, 1); (2, 1)] tower_locked
    = Ret (false, tower_locked) /\
  exists s' : Tetris,
    spawn_piece forced_shuffle tower_locked = Ret (VNone, s') /\
    game_over s' = true /\ board s' = board tower_locked /\
    current_type tower_locked = Some KO /\
    current_type s' = Some KT /\
    current_piece s' <> current_piece tower_locked.
Proof.
  split; [exact wf_board_tower_locked |].
  split; [reflexivity |].
  split; [by vm_compute |].
  exists tower_over.
  split; [by vm_compute |].
  repeat split; done.
Qed.

(** Counterexample to C9 as worded: in the game-over state [tower_over] (which
    [draw_board] still renders) [get_ghost_y] returns row 0, where the
    active piece is not at a valid position. *)
Lemma get_ghost_y_game_over :
  wf_board (board tower_over) /\
  current_piece tower_over = Some [(1, 0); (0, 1); (1, 1); (2, 1)] /\
  (forall fuel : nat, (0 < fuel)%nat -> get_ghost_y fuel tower_over = Ret (0, tower_over)) /\
  is_valid_position (current_x tower_over) 0 [(1, 0); (0, 1); (1, 1); (2, 1)] tower_over
    = Ret (false, tower_over).
Proof.
  split; [exact wf_board_tower_locked |].
  split; [reflexivity |].
  split; [| by vm_compute].
  intros [| fuel] Hfuel; [lia |]. by vm_compute.
Qed.

(** Counterexample to C10 as worded: from [kicked_game], a state the keys of
    [climb] reach from a spawn, [move(0, 1)] succeeds 21 times in a
    row, more than the board height. *)
Lemma hard_drop_loop_above_board :
  wf_board (board kicked_game) /\
  current_piece kicked_game = TETROMINOES KT !! 0%nat /\
  hard_drop_loop 22 0 kicked_game = Ret (21, set_current_y 18 kicked_game) /\
  get_ghost_y 22 kicked_game = Ret (18, kicked_game) /\
  ~ (21 <= BOARD_HEIGHT).
Proof.
  split; [exact wf_board_kick |].
  split; [reflexivity |].
  split; [by vm_compute |].
  split; [by vm_compute |].
  unfold BOARD_HEIGHT. lia.
Qed.

(** ** The theorems at work on the scenarios *)

(** Rows 5 and 7 of [rows57_game] are cleared. *)
Lemma clear_lines_compacts_witness :
  wf_board (board rows57_game) /\
  exists s' : Tetris,
    clear_lines rows57_game = Ret (VNone, s') /\
    lines_cleared s' = lines_cleared rows57_game + 2.
Proof.
  split; [exact wf_board_rows57 |].
  destruct (clear_lines_compacts rows57_game wf_board_rows57)
    as (s' & Hs' & _ & _ & _ & H57).
  exists s'. split; [exact Hs' |].
  exact (proj1 (H57 rows57_board_complete)).
Defined.

(** The T piece cannot spawn in [tower_locked]. *)
Lemma spawn_piece_game_over_witness :
  wf_board (board tower_locked) /\
  exists s' : Tetris,
    spawn_piece forced_shuffle tower_locked = Ret (VNone, s') /\
    game_over s' = true /\ board s' = board tower_locked.
Proof.
  split; [exact wf_board_tower_locked |].
  destruct (spawn_piece_game_over forced_shuffle forced_shuffle_perm tower_locked
              wf_board_tower_locked)
    as (k & k' & p & s' & Hs' & Hk & Hp & _ & _ & _ & _ & _ & _ & Hb & _ & _ & _ & Hover & _).
  exists s'. split; [exact Hs' |]. split; [| exact Hb].
  apply Hover.
  rewrite (Hk KT eq_refl) in Hp. vm_compute in Hp. injection Hp as <-.
  vm_compute. reflexivity.
Defined.

(** One row down, the O piece of [tower_game] would sit on the tower. *)
Lemma is_valid_position_iff_witness :
  wf_board (board tower_game) /\
  exists v : bool,
    is_valid_position 3 1 [(1, 0); (2, 0); (1, 1); (2, 1)] tower_game
      = Ret (v, tower_game) /\
    v = false.
Proof.
  split; [exact wf_board_tower |].
  destruct (is_valid_position_iff tower_game 3 1 [(1, 0); (2, 0); (1, 1); (2, 1)]
              wf_board_tower)
    as (v & Hv & _ & _ & Hreject).
  exists v. split; [exact Hv |].
  apply Hreject. apply Exists_cons_tl, Exists_cons_tl, Exists_cons_hd.
  right. right. right. exists KI. split; [vm_compute; discriminate | reflexivity].
Defined.

(** The first rotation of [kick_start] is kicked one row up. *)
Lemma rotate_first_valid_offset_witness :
  wf_board (board kick_start) /\
  current_type kick_start = Some KT /\
  rotate kick_start =
    Ret (true, rotated 1 [(1, 0); (1, 1); (2, 1); (1, 2)] (0, -1) kick_start).
Proof.
  split; [exact wf_board_kick |]. split; [reflexivity |].
  destruct (rotate_first_valid_offset kick_start KT wf_board_kick eq_refl)
    as (p & Hp & Hrot).
  vm_compute in Hp. injection Hp as <-.
  rewrite Hrot. vm_compute. reflexivity.
Defined.

(** The hard drop of the first piece of [new_game_O]. *)
Lemma hard_drop_awards_twice_distance_witness :
  board new_game_O = empty_board /\
  current_type new_game_O = Some KO /\
  exists s' : Tetris,
    hard_drop forced_shuffle 19 new_game_O = Ret (VNone, s') /\
    score s' = score new_game_O + 36 /\
    board s' = replicate 18 empty_row ++ [O_row; O_row].
Proof.
  split; [reflexivity |]. split; [reflexivity |].
  destruct (proj2 (hard_drop_awards_twice_distance forced_shuffle forced_shuffle_perm)
              new_game_O eq_refl eq_refl eq_refl eq_refl eq_refl 19%nat ltac:(lia))
    as (s' & Hs' & Hscore & _ & Hboard).
  exists s'. split; [exact Hs' |]. split; [exact Hscore | exact Hboard].
Defined.

(** Four lines at level 3. *)
Lemma clear_lines_score_witness :
  wf_board (board four_lines_game) /\
  1 <= Z.of_nat (completed (board four_lines_game)) /\
  level four_lines_game = 3 /\
  exists s' : Tetris,
    clear_lines four_lines_game = Ret (VNone, s') /\
    score s' = score four_lines_game + 2400 /\
    level s' = lines_cleared s' / 10 + 1.
Proof.
  assert (Hwf : wf_board (board four_lines_game))
    by (split; [reflexivity | repeat constructor]).
  assert (Hn : 1 <= Z.of_nat (completed (board four_lines_game)))
    by (vm_compute; discriminate).
  split; [exact Hwf |]. split; [exact Hn |]. split; [reflexivity |].
  destruct (clear_lines_score four_lines_game Hwf Hn)
    as (s' & Hs' & _ & _ & _ & _ & _ & _ & Hlevel & H2400).
  exists s'. split; [exact Hs' |]. split; [| exact Hlevel].
  apply H2400; reflexivity.
Defined.

(** Seven draws from an empty bag, with the forced order. *)
Lemma bag_window_witness :
  bag (set_bag [] new_game_O) = [] /\
  exists (ks : list Kind) (s' : Tetris),
    draws forced_shuffle 7 (set_bag [] new_game_O) = Ret (ks, s') /\
    ks ≡ₚ TETROMINOES_keys.
Proof.
  split; [reflexivity |].
  destruct (bag_window forced_shuffle forced_shuffle_perm (set_bag [] new_game_O) eq_refl)
    as [_ (ks & s' & Hdraws & Hperm & _)].
  exists ks, s'. split; [exact Hdraws | exact Hperm].
Defined.

(** Four rotations of a T piece over the empty board. *)
Lemma rotate_four_times_witness :
  wf_board (board free_T) /\
  current_type free_T = Some KT /\
  current_piece free_T = TETROMINOES KT !! Z.to_nat (current_rotation free_T) /\
  exists s1 s2 s3 : Tetris,
    rotate free_T = Ret (true, s1) /\ rotate s1 = Ret (true, s2) /\
    rotate s2 = Ret (true, s3) /\ rotate s3 = Ret (true, free_T).
Proof.
  split; [exact wf_board_empty |]. split; [reflexivity |]. split; [reflexivity |].
  destruct (proj2 rotate_four_times free_T KT wf_board_empty eq_refl)
    as (s1 & s2 & s3 & s4 & H1 & H2 & H3 & H4 & _ & _ & _ & _ & _ & Hs4).
  - vm_compute. split; [discriminate | reflexivity].
  - reflexivity.
  - intros i Hi.
    assert (Hcases : i = 1 \/ i = 2 \/ i = 3 \/ i = 4) by lia.
    destruct Hcases as [-> | [-> | [-> | ->]]];
      eexists; (split; [reflexivity | vm_compute; reflexivity]).
  - exists s1, s2, s3. rewrite Hs4 in H4. by repeat split.
Defined.

(** The ghost of the first piece of [new_game_O] is in row 18. *)
Lemma get_ghost_y_lowest_witness :
  wf_board (board new_game_O) /\
  is_valid_position (current_x new_game_O) (current_y new_game_O)
    [(1, 0); (2, 0); (1, 1); (2, 1)] new_game_O = Ret (true, new_game_O) /\
  get_ghost_y 20 new_game_O = Ret (18, new_game_O).
Proof.
  assert (Hcat : catalog_layout [(1, 0); (2, 0); (1, 1); (2, 1)])
    by (exists KO, 0%nat; reflexivity).
  assert (Hvalid : is_valid_position (current_x new_game_O) (current_y new_game_O)
                     [(1, 0); (2, 0); (1, 1); (2, 1)] new_game_O
                   = Ret (true, new_game_O))
    by (vm_compute; reflexivity).
  split; [exact wf_board_empty |]. split; [exact Hvalid |].
  destruct (get_ghost_y_lowest new_game_O _ wf_board_empty eq_refl Hcat Hvalid)
    as (gy & Hgy & _).
  rewrite (Hgy 20%nat ltac:(vm_compute; reflexivity)).
  pose proof (Hgy 20%nat ltac:(vm_compute; reflexivity)) as Hrun.
  vm_compute in Hrun. injection Hrun as <-. reflexivity.
Defined.

(** The loops return from [kicked_game] as well. *)
Lemma downward_loops_terminate_witness :
  wf_board (board kicked_game) /\
  catalog_layout [(1, 0); (0, 1); (1, 1); (2, 1)] /\
  exists (d : nat) (s' : Tetris),
    Z.of_nat d <= Z.max 0 (BOARD_HEIGHT - 1 - current_y kicked_game) /\
    hard_drop_loop (S d) 0 kicked_game = Ret (Z.of_nat d, s') /\
    get_ghost_y (S d) kicked_game = Ret (current_y kicked_game + Z.of_nat d, kicked_game).
Proof.
  assert (Hcat : catalog_layout [(1, 0); (0, 1); (1, 1); (2, 1)])
    by (exists KT, 0%nat; reflexivity).
  split; [exact wf_board_kick |]. split; [exact Hcat |].
  destruct (downward_loops_terminate kicked_game _ wf_board_kick eq_refl Hcat)
    as (_ & _ & d & s' & _ & Hbound & _ & Hrun).
  exists d, s'. split; [exact Hbound |].
  exact (Hrun (S d) (Nat.lt_succ_diag_r d)).
Defined.

(** * Further properties of the engine *)

(** ** Locking *)

Lemma completed_cons (r : row) (b : grid) :
  completed (r :: b) = ((if row_complete r then 1 else 0) + completed b)%nat.
Proof. unfold completed. cbn [List.filter]. by destruct (row_complete r). Qed.

Lemma completed_insert (b : grid) (i : nat) (r : row) :
  (completed (<[i := r]> b) <= S (completed b))%nat.
Proof.
  revert i. induction b as [| r0 b IH]; intros i; [destruct i; cbn; lia |].
  destruct i as [| i].
  - change (<[0%nat := r]> (r0 :: b)) with (r :: b). rewrite !completed_cons.
    destruct (row_complete r), (row_complete r0); lia.
  - change (<[S i := r]> (r0 :: b)) with (r0 :: <[i := r]> b).
    rewrite !completed_cons.
    specialize (IH i). destruct (row_complete r0); lia.
Qed.

Lemma completed_write_cell (t : option Kind) (cx cy : Z) (b : grid) (c : cell) :
  (completed (write_cell t cx cy b c) <= S (completed b))%nat.
Proof.
  unfold write_cell. destruct (_ && _); [| lia].
  destruct (b !! _); [apply completed_insert | lia].
Qed.

Lemma completed_locked_board (t : option Kind) (cx cy : Z) (piece : layout) :
  forall b : grid,
    (completed (locked_board t cx cy b piece) <= completed b + length piece)%nat.
Proof.
  unfold locked_board. induction piece as [| c piece IH]; intros b;
    [cbn [foldl length]; lia |].
  cbn [foldl length]. specialize (IH (write_cell t cx cy b c)).
  pose proof (completed_write_cell t cx cy b c). lia.
Qed.

Lemma wf_board_write_cell (t : option Kind) (cx cy : Z) (b : grid) (c : cell) :
  wf_board b -> wf_board (write_cell t cx cy b c).
Proof.
  intros [Hlen Hrows]. unfold write_cell. destruct (_ && _); [| done].
  destruct (b !! _) as [r |] eqn:Hr; [| done].
  split; [by rewrite length_insert |].
  apply Forall_insert; [done |].
  rewrite length_insert. by eapply (Forall_lookup_1 _ _ _ _ Hrows).
Qed.

Lemma wf_board_locked_board (t : option Kind) (cx cy : Z) (piece : layout) :
  forall b : grid, wf_board b -> wf_board (locked_board t cx cy b piece).
Proof.
  unfold locked_board. induction piece as [| c piece IH]; intros b Hwf; [done |].
  cbn [foldl]. by apply IH, wf_board_write_cell.
Qed.

(** On a Playfield, the loop of [lock_piece] raises nothing and leaves
    the board [locked_board]. *)
Lemma lock_piece_cells_locked (piece : layout) :
  forall s : Tetris,
    wf_board (board s) ->
    lock_piece_cells piece s =
      Ret (tt, set_board (locked_board (current_type s) (current_x s) (current_y s)
                            (board s) piece) s).
Proof.
  induction piece as [| [px py] piece IH]; intros s Hwf.
  - cbn. by rewrite set_board_id.
  - cbn [lock_piece_cells]. unfold bind at 1, gets. unfold bind at 1.
    unfold bind at 1.
    assert (Hstep :
      (if (0 <=? current_y s + py) && (current_y s + py <? BOARD_HEIGHT) &&
          ((0 <=? current_x s + px) && (current_x s + px <? BOARD_WIDTH))
       then
         let! b := gets board in
         let! r := lift (getitem b (current_y s + py)) in
         let! t := gets current_type in
         let! r' := lift (setitem r (current_x s + px) t) in
         let! b' := lift (setitem b (current_y s + py) r') in
         modify (set_board b')
       else ret tt) s =
      Ret (tt, set_board (write_cell (current_type s) (current_x s) (current_y s)
                            (board s) (px, py)) s)).
    { unfold write_cell. cbn [fst snd].
      destruct (_ && _) eqn:Hin; [| by rewrite set_board_id].
      rewrite !andb_true_iff, !Z.leb_le, !Z.ltb_lt in Hin.
      destruct (wf_board_row (board s) (current_y s + py) Hwf) as (r & Hr & Hlen);
        [lia |].
      rewrite Hr. unfold bind, gets, modify.
      rewrite (getitem_lookup (board s) (current_y s + py) r) by (lia || done).
      cbn [lift]. unfold setitem.
      rewrite norm_index_nonneg by (rewrite Hlen; unfold BOARD_WIDTH in *; lia).
      cbn [lift].
      rewrite norm_index_nonneg
        by (destruct Hwf as [-> _]; unfold BOARD_HEIGHT in *; lia).
      done. }
    cbv zeta. unfold gets in Hstep. rewrite Hstep.
    rewrite IH by (cbn [board set_board]; by apply wf_board_write_cell).
    done.
Qed.

Lemma cell_at_write_cell (t : option Kind) (cx cy : Z) (b : grid) (c : cell) (x y : Z) :
  wf_board b -> in_grid x y ->
  cell_at (write_cell t cx cy b c) x y =
    if bool_decide (x = cx + c.1 /\ y = cy + c.2) then Some t else cell_at b x y.
Proof.
  intros Hwf [Hx Hy]. unfold write_cell.
  destruct (_ && _) eqn:Hin.
  - rewrite !andb_true_iff, !Z.leb_le, !Z.ltb_lt in Hin.
    destruct (wf_board_row b (cy + c.2) Hwf) as (r & Hr & Hlen); [lia |].
    rewrite Hr. unfold cell_at.
    destruct (decide (y = cy + c.2)) as [-> | Hne].
    + rewrite list_lookup_insert_eq by (by eapply lookup_lt_Some).
      rewrite Hr.
      destruct (decide (x = cx + c.1)) as [-> | Hnx].
      * rewrite bool_decide_eq_true_2 by done.
        apply list_lookup_insert_eq. rewrite Hlen. unfold BOARD_WIDTH in *. lia.
      * rewrite bool_decide_eq_false_2 by (intros [? _]; done).
        apply list_lookup_insert_ne. lia.
    + rewrite bool_decide_eq_false_2 by (intros [_ ?]; done).
      rewrite list_lookup_insert_ne by lia. done.
  - rewrite bool_decide_eq_false_2; [done |].
    intros [-> ->]. unfold BOARD_WIDTH, BOARD_HEIGHT in *.
    rewrite !andb_false_iff, !Z.leb_gt, !Z.ltb_ge in Hin. lia.
Qed.

Lemma cell_at_locked_board (t : option Kind) (cx cy : Z) (piece : layout) (x y : Z) :
  in_grid x y ->
  forall b : grid,
    wf_board b ->
    cell_at (locked_board t cx cy b piece) x y =
      if bool_decide (covers cx cy piece x y) then Some t else cell_at b x y.
Proof.
  intros Hxy. unfold locked_board, covers.
  induction piece as [| c piece IH]; intros b Hwf.
  - cbn [foldl]. rewrite bool_decide_eq_false_2; [done |]. by intros ?%elem_of_nil.
  - cbn [foldl]. rewrite IH by by apply wf_board_write_cell.
    rewrite cell_at_write_cell by done.
    destruct (decide ((x - cx, y - cy) ∈ piece)) as [Hin | Hnin].
    + rewrite !bool_decide_eq_true_2; [done | by right | done].
    + rewrite (bool_decide_eq_false_2 _ Hnin).
      destruct (decide (x = cx + c.1 /\ y = cy + c.2)) as [[-> ->] | Hne].
      * rewrite !bool_decide_eq_true_2; [done | | done].
        replace (cx + c.1 - cx, cy + c.2 - cy) with c
          by (destruct c; cbn; f_equal; lia).
        by left.
      * rewrite !bool_decide_eq_false_2; [done | | done].
        intros [Hc | Hc]%elem_of_cons; [| done].
        apply Hne. rewrite <- Hc. cbn. lia.
Qed.

(** X1. On a Playfield the cell-writing loop of [lock_piece] never
    raises, whatever the offset of the piece: cells of the piece that
    fall outside the grid are skipped.  Afterwards the board is still a
    Playfield, every grid cell the piece covers holds the piece's kind,
    every other grid cell is as before, and no other attribute has
    changed. *)
Theorem lock_piece_cells_writes (s : Tetris) (piece : layout) :
  wf_board (board s) ->
  exists s' : Tetris,
    lock_piece_cells piece s = Ret (tt, s') /\
    wf_board (board s') /\
    (forall x y : Z,
       in_grid x y ->
       cell_at (board s') x y =
         if bool_decide (covers (current_x s) (current_y s) piece x y)
         then Some (current_type s)
         else cell_at (board s) x y) /\
    s' = set_board (board s') s.
Proof.
  intros Hwf. eexists. split; [by apply lock_piece_cells_locked |].
  cbn [board set_board].
  split; [by apply wf_board_locked_board |].
  split; [| done].
  intros x y Hxy. by apply cell_at_locked_board.
Qed.

Lemma fits_false_occupied (b : grid) (x y : Z) (p : layout) (c : cell) (k : Kind) :
  c ∈ p -> 0 <= y + c.2 ->
  cell_at b (x + c.1) (y + c.2) = Some (Some k) ->
  fits b x y p = false.
Proof.
  intros Hc Hy Hat. apply not_true_is_false. intros Hfit.
  unfold fits in Hfit. rewrite forallb_forall in Hfit.
  apply list_elem_of_In, Hfit in Hc. unfold cell_fits in Hc.
  rewrite Hat in Hc.
  rewrite !andb_true_iff, orb_true_iff, Z.ltb_lt in Hc.
  destruct Hc as [_ [? | ?]]; [lia | done].
Qed.

(** X2. A locked piece blocks its own place: when the active piece has
    a kind and at least one of its cells lies in the grid, then after
    the cell-writing loop of [lock_piece] the same layout at the same
    offset is no longer a valid position. *)
Theorem lock_piece_cells_blocks (s : Tetris) (piece : layout) (k : Kind) (c : cell) :
  wf_board (board s) -> current_type s = Some k ->
  c ∈ piece -> in_grid (current_x s + c.1) (current_y s + c.2) ->
  exists s' : Tetris,
    lock_piece_cells piece s = Ret (tt, s') /\
    is_valid_position (current_x s') (current_y s') piece s' = Ret (false, s').
Proof.
  intros Hwf Hk Hc Hgrid. eexists. split; [by apply lock_piece_cells_locked |].
  rewrite is_valid_position_fits
    by (cbn [board set_board]; by apply wf_board_locked_board).
  cbn [board set_board current_x current_y].
  rewrite (fits_false_occupied _ (current_x s) (current_y s) piece c k); try done.
  - destruct Hgrid as [_ ?]. lia.
  - rewrite cell_at_locked_board by done.
    rewrite bool_decide_eq_true_2; [by rewrite Hk |].
    unfold covers.
    replace (current_x s + c.1 - current_x s, current_y s + c.2 - current_y s) with c
      by (destruct c; cbn; f_equal; lia).
    done.
Qed.

(** ** After a line clear *)

Lemma completed_app (b1 b2 : grid) :
  completed (b1 ++ b2) = (completed b1 + completed b2)%nat.
Proof. unfold completed. by rewrite List.filter_app, length_app. Qed.

Lemma completed_replicate_empty (n : nat) : completed (replicate n empty_row) = 0%nat.
Proof. induction n as [| n IH]; [done |]. cbn [replicate]. by rewrite completed_cons, IH. Qed.

Lemma remaining_cons (r : row) (b : grid) :
  remaining (r :: b) = if row_complete r then remaining b else r :: remaining b.
Proof. unfold remaining. cbn [List.filter]. by destruct (row_complete r). Qed.

Lemma completed_remaining (b : grid) : completed (remaining b) = 0%nat.
Proof.
  induction b as [| r b IH]; [done |].
  rewrite remaining_cons. destruct (row_complete r) eqn:Hr; [done |].
  by rewrite completed_cons, Hr, IH.
Qed.

Lemma completed_compacted (b : grid) : completed (compacted b) = 0%nat.
Proof.
  unfold compacted.
  by rewrite completed_app, completed_replicate_empty, completed_remaining.
Qed.

Lemma remaining_id (b : grid) : completed b = 0%nat -> remaining b = b.
Proof.
  induction b as [| r b IH]; [done |].
  rewrite completed_cons, remaining_cons.
  destruct (row_complete r); [lia |]. intros H. by rewrite IH.
Qed.

Lemma cleared_id (s : Tetris) : completed (board s) = 0%nat -> cleared s = s.
Proof.
  intros H. unfold cleared, compacted. rewrite H, remaining_id by done.
  cbn. by rewrite set_board_id.
Qed.

Lemma board_cleared (s : Tetris) : board (cleared s) = compacted (board s).
Proof. unfold cleared. by destruct (_ >? 0). Qed.

(** X3. After [clear_lines], no row of the Playfield is complete, and
    calling [clear_lines] again changes nothing at all; on a Playfield
    without a complete row the first call already changes nothing
    (board, score, level and line count stay as they are). *)
Theorem clear_lines_idempotent (s : Tetris) :
  wf_board (board s) ->
  exists s' : Tetris,
    clear_lines s = Ret (VNone, s') /\
    completed (board s') = 0%nat /\
    clear_lines s' = Ret (VNone, s') /\
    (completed (board s) = 0%nat -> s' = s).
Proof.
  intros Hwf. exists (cleared s).
  assert (Hnone : completed (board (cleared s)) = 0%nat)
    by (rewrite board_cleared; apply completed_compacted).
  split; [by apply clear_lines_cleared |].
  split; [exact Hnone |].
  split; [| apply cleared_id].
  rewrite clear_lines_cleared
    by (rewrite board_cleared; by apply wf_board_compacted).
  by rewrite (cleared_id _ Hnone).
Qed.

Lemma occupied_cons (r : row) (b : grid) :
  occupied (r :: b) = (occupied_row r + occupied b)%nat.
Proof. done. Qed.

Lemma occupied_row_complete (r : row) :
  row_complete r = true -> occupied_row r = length r.
Proof.
  unfold row_complete, occupied_row. induction r as [| c r IH]; [done |].
  cbn [forallb List.filter]. intros [-> Hr]%andb_true_iff.
  cbn [length]. by rewrite IH.
Qed.

Lemma occupied_replicate_empty (n : nat) (b : grid) :
  occupied (replicate n empty_row ++ b) = occupied b.
Proof. induction n as [| n IH]; [done |]. cbn [replicate app]. by rewrite occupied_cons, IH. Qed.

Lemma occupied_remaining (b : grid) :
  Forall (fun r : row => length r = Z.to_nat BOARD_WIDTH) b ->
  (occupied (remaining b) + Z.to_nat BOARD_WIDTH * completed b)%nat = occupied b.
Proof.
  induction 1 as [| r b Hr _ IH]; [done |].
  rewrite remaining_cons, completed_cons, occupied_cons.
  destruct (row_complete r) eqn:Hc.
  - rewrite (occupied_row_complete r Hc), Hr. lia.
  - rewrite occupied_cons. lia.
Qed.

(** X4. [clear_lines] removes occupied cells only by whole rows: the
    number of occupied cells of the Playfield drops by exactly
    [BOARD_WIDTH] (10) for each complete row, and the board has as many
    rows as before. *)
Theorem clear_lines_occupied (s : Tetris) :
  wf_board (board s) ->
  exists s' : Tetris,
    clear_lines s = Ret (VNone, s') /\
    (occupied (board s') + 10 * completed (board s))%nat = occupied (board s) /\
    length (board s') = length (board s).
Proof.
  intros Hwf. exists (cleared s).
  split; [by apply clear_lines_cleared |].
  rewrite board_cleared. split.
  - unfold compacted. rewrite occupied_replicate_empty.
    apply (occupied_remaining (board s)), Hwf.
  - destruct (wf_board_compacted _ Hwf) as [-> _]. by destruct Hwf as [-> _].
Qed.

(** ** What the methods keep *)

Lemma consistent_layout (s : Tetris) :
  consistent s ->
  exists (k : Kind) (p : layout),
    current_type s = Some k /\ current_piece s = Some p /\
    catalog_layout p /\ length p = 4%nat.
Proof.
  intros [_ _ (k & Hk & Hr & Hp) _ _ _ _].
  destruct (TETROMINOES_states k) as [Hlen Hall].
  destruct (lookup_lt_is_Some_2 (TETROMINOES k) (Z.to_nat (current_rotation s)))
    as [p Hl]; [lia |].
  exists k, p. rewrite Hp. repeat split; try done.
  - by exists k, (Z.to_nat (current_rotation s)).
  - by destruct (Forall_lookup_1 _ _ _ _ Hall Hl) as [? _].
Qed.

Lemma consistent_moved (s : Tetris) (p : layout) (x y : Z) :
  consistent s -> current_piece s = Some p ->
  fits (board s) x y p = true ->
  consistent (set_current_y y (set_current_x x s)).
Proof.
  intros [Hwf Hl Hk Hn Hlv Hsc Hpl] Hp Hfit.
  split; simpl_state; try done.
  intros p' Hp' _. rewrite valid_at_fits by done. simpl_state. congruence.
Qed.

Lemma move_consistent (s : Tetris) (dx dy : Z) :
  consistent s ->
  exists (ok : bool) (s' : Tetris),
    move dx dy s = Ret (ok, s') /\
    consistent s' /\
    s' = set_current_y (current_y s') (set_current_x (current_x s') s) /\
    (ok = true -> current_x s' = current_x s + dx /\ current_y s' = current_y s + dy) /\
    (ok = false -> s' = s).
Proof.
  intros Hc. destruct (consistent_layout s Hc) as (k & p & _ & Hp & _ & _).
  rewrite (move_fits dx dy s p (consistent_board s Hc) Hp).
  destruct (fits _ _ _ _) eqn:Hfit.
  - eexists true, _. split; [reflexivity |].
    split; [by apply (consistent_moved s p) |].
    simpl_state. by repeat split.
  - exists false, s. split; [reflexivity |]. split; [done |].
    split; [by destruct s |]. by split.
Qed.

(** X5. [move] keeps a game consistent, for any [dx] and [dy].  It
    changes nothing but the offset of the active piece: a successful
    move adds [(dx, dy)] to it, a rejected one leaves the whole state
    as it was. *)
Theorem move_keeps_consistent (s : Tetris) (dx dy : Z) :
  consistent s ->
  exists (ok : bool) (s' : Tetris),
    move dx dy s = Ret (ok, s') /\
    consistent s' /\
    s' = set_current_y (current_y s') (set_current_x (current_x s') s) /\
    (ok = true -> current_x s' = current_x s + dx /\ current_y s' = current_y s + dy) /\
    (ok = false -> s' = s).
Proof. by apply move_consistent. Qed.

Lemma find_rotation_offsets (f : Z * Z -> bool) (d : Z * Z) :
  find f rotation_offsets = Some d ->
  f d = true /\
  (d = (0, 0) \/ d = (-1, 0) \/ d = (1, 0) \/ d = (-2, 0) \/ d = (2, 0) \/
   (d = (0, -1) /\ f (0, 0) = false)).
Proof.
  unfold rotation_offsets. cbn [find].
  destruct (f (0, 0)) eqn:H0; [intros [= <-]; auto |].
  destruct (f (-1, 0)) eqn:H1; [intros [= <-]; auto |].
  destruct (f (1, 0)) eqn:H2; [intros [= <-]; auto |].
  destruct (f (-2, 0)) eqn:H3; [intros [= <-]; auto 6 |].
  destruct (f (2, 0)) eqn:H4; [intros [= <-]; auto 7 |].
  destruct (f (0, -1)) eqn:H5; [intros [= <-]; auto 8 | done].
Qed.

Lemma consistent_rotated (s : Tetris) (k : Kind) (p' : layout) (d : Z * Z) :
  consistent s -> current_type s = Some k ->
  TETROMINOES k !! Z.to_nat ((current_rotation s + 1) mod 4) = Some p' ->
  fits (board s) (current_x s + d.1) (current_y s + d.2) p' = true ->
  consistent (rotated ((current_rotation s + 1) mod 4) p' d s).
Proof.
  intros [Hwf Hl Hk Hn Hlv Hsc Hpl] Hkind Hp' Hfit.
  unfold rotated. split; simpl_state; try done.
  - exists k. split; [done |]. split; [| done].
    apply Z.mod_pos_bound. lia.
  - intros p [= <-] _. rewrite valid_at_fits by done. by simpl_state.
Qed.

Lemma rotate_consistent (s : Tetris) :
  consistent s ->
  exists (ok : bool) (s' : Tetris),
    rotate s = Ret (ok, s') /\
    consistent s' /\
    s' = set_current_piece (current_piece s')
           (set_current_rotation (current_rotation s')
              (set_current_y (current_y s') (set_current_x (current_x s') s))) /\
    (ok = true -> current_rotation s' = (current_rotation s + 1) mod 4) /\
    (ok = false -> s' = s).
Proof.
  intros Hc. destruct (consistent_layout s Hc) as (k & _ & Hk & _ & _ & _).
  destruct (rotate_find s k (consistent_board s Hc) Hk) as (p' & Hp' & Hrot).
  rewrite Hrot.
  destruct (find _ rotation_offsets) as [d |] eqn:Hfind.
  - apply find_rotation_offsets in Hfind as [Hfit _].
    eexists true, _. split; [reflexivity |].
    split; [by apply (consistent_rotated s k) |].
    unfold rotated. simpl_state. by repeat split.
  - exists false, s. split; [reflexivity |]. split; [done |].
    split; [by destruct s |]. by split.
Qed.

(** X6. [rotate] keeps a game consistent.  It changes nothing but the
    rotation index, the layout and the offset of the active piece; the
    kind, the board, the score and the bag are as before, and a
    rejected rotation leaves the whole state as it was. *)
Theorem rotate_keeps_consistent (s : Tetris) :
  consistent s ->
  exists (ok : bool) (s' : Tetris),
    rotate s = Ret (ok, s') /\
    consistent s' /\
    s' = set_current_piece (current_piece s')
           (set_current_rotation (current_rotation s')
              (set_current_y (current_y s') (set_current_x (current_x s') s))) /\
    (ok = true -> current_rotation s' = (current_rotation s + 1) mod 4) /\
    (ok = false -> s' = s).
Proof. by apply rotate_consistent. Qed.

Lemma fits_false_cell (b : grid) (x y : Z) (p : layout) :
  fits b x y p = false -> exists c : cell, c ∈ p /\ cell_fits b x y c = false.
Proof.
  unfold fits. induction p as [| c p IH]; [done |].
  cbn [forallb]. intros [Hc | Hp]%andb_false_iff.
  - exists c. split; [by left | done].
  - destruct (IH Hp) as (c' & Hc' & Hf). exists c'. split; [by right | done].
Qed.

(** A layout of the frame that fits one row higher but not here has a
    cell in a visible row or below the floor. *)
Lemma kick_up_height (b : grid) (x y : Z) (p : layout) :
  Forall in_frame p ->
  fits b x y p = false -> fits b x (y - 1) p = true -> -3 <= y.
Proof.
  intros Hframe Hno Hyes.
  destruct (fits_false_cell b x y p Hno) as (c & Hc & Hf).
  unfold fits in Hyes. rewrite forallb_forall in Hyes.
  pose proof (Hyes c (proj1 (list_elem_of_In _ _) Hc)) as Hup.
  rewrite Forall_forall in Hframe.
  destruct (Hframe c (proj1 (list_elem_of_In _ _) Hc)) as [_ Hrow].
  unfold cell_fits in Hup, Hf.
  rewrite !andb_true_iff, !Z.leb_le, !Z.ltb_lt in Hup.
  destruct Hup as [[[Hx0 Hx1] Hy1] _].
  destruct (Z_lt_le_dec (y + c.2) 0) as [Hneg | ?]; [| lia].
  exfalso. revert Hf.
  destruct (Z.leb_spec 0 (x + c.1)), (Z.ltb_spec (x + c.1) BOARD_WIDTH),
    (Z.ltb_spec (y + c.2) BOARD_HEIGHT), (Z.ltb_spec (y + c.2) 0);
    unfold BOARD_HEIGHT in *; try lia; done.
Qed.

Lemma rotate_kick (s : Tetris) (k : Kind) :
  wf_board (board s) -> current_type s = Some k ->
  exists (ok : bool) (s' : Tetris),
    rotate s = Ret (ok, s') /\
    current_x s - 2 <= current_x s' <= current_x s + 2 /\
    (current_y s' = current_y s \/
     (current_y s' = current_y s - 1 /\ current_x s' = current_x s /\
      -3 <= current_y s)).
Proof.
  intros Hwf Hk.
  destruct (rotate_find s k Hwf Hk) as (p' & Hp' & Hrot). rewrite Hrot.
  destruct (find _ rotation_offsets) as [d |] eqn:Hfind.
  - apply find_rotation_offsets in Hfind as [Hfit Hd].
    eexists true, _. split; [reflexivity |].
    unfold rotated. simpl_state.
    destruct Hd as [-> | [-> | [-> | [-> | [-> | [-> Hplain]]]]]]; cbn [fst snd];
      try (split; [lia | left; lia]).
    split; [lia |]. right. split; [lia |]. split; [lia |].
    cbn [fst snd] in Hfit, Hplain. rewrite !Z.add_0_r in Hfit, Hplain.
    apply (kick_up_height (board s) (current_x s) (current_y s) p').
    + destruct (TETROMINOES_states k) as [_ Hall].
      by destruct (Forall_lookup_1 _ _ _ _ Hall Hp') as (_ & _ & ?).
    + by rewrite ?Z.add_0_r in Hplain.
    + exact Hfit.
  - exists false, s. split; [reflexivity |]. split; [lia | left; lia].
Qed.

(** X7. A rotation moves the piece by at most two columns and at most
    one row up, never down; and the kick one row up only happens to a
    piece that is at row offset -3 or below it.  So [rotate] never
    takes a piece from row offset -4 or lower any higher, whatever the
    board. *)
Theorem rotate_kick_bound (s : Tetris) (k : Kind) :
  wf_board (board s) -> current_type s = Some k ->
  exists (ok : bool) (s' : Tetris),
    rotate s = Ret (ok, s') /\
    current_x s - 2 <= current_x s' <= current_x s + 2 /\
    (current_y s' = current_y s \/
     (current_y s' = current_y s - 1 /\ current_x s' = current_x s /\
      -3 <= current_y s)).
Proof. by apply rotate_kick. Qed.

(** X8. A successful move can be taken back: from a state whose active
    piece is at a valid position, if [move(dx, dy)] succeeds then
    [move(-dx, -dy)] succeeds as well and restores the state exactly. *)
Theorem move_undo (s : Tetris) (p : layout) (dx dy : Z) :
  wf_board (board s) -> current_piece s = Some p ->
  is_valid_position (current_x s) (current_y s) p s = Ret (true, s) ->
  exists (ok : bool) (s1 : Tetris),
    move dx dy s = Ret (ok, s1) /\
    (ok = true -> move (- dx) (- dy) s1 = Ret (true, s)) /\
    (ok = false -> s1 = s).
Proof.
  intros Hwf Hp Hvalid.
  rewrite is_valid_position_fits in Hvalid by done.
  injection Hvalid as Hfit.
  rewrite (move_fits dx dy s p Hwf Hp).
  destruct (fits (board s) (current_x s + dx) (current_y s + dy) p) eqn:Hnew.
  - eexists true, _. split; [reflexivity |]. split; [| done]. intros _.
    rewrite (move_fits (- dx) (- dy) _ p) by done. simpl_state.
    replace (current_x s + dx + - dx) with (current_x s) by lia.
    replace (current_y s + dy + - dy) with (current_y s) by lia.
    rewrite Hfit. by destruct s.
  - exists false, s. by repeat split.
Qed.

(** X9. The hard drop ends where the ghost is: for a catalog piece on a
    Playfield, the dropping loop of [hard_drop] leaves the piece at the
    row [get_ghost_y] returns, having counted the rows between, and
    changes nothing else; in the dropped state [move(0, 1)] is
    rejected and [get_ghost_y] returns the row the piece is at. *)
Theorem hard_drop_loop_reaches_ghost (s : Tetris) (p : layout) :
  wf_board (board s) -> current_piece s = Some p -> catalog_layout p ->
  exists gy : Z,
    current_y s <= gy /\
    forall fuel : nat,
      Z.max 0 (BOARD_HEIGHT - 1 - current_y s) < Z.of_nat fuel ->
      get_ghost_y fuel s = Ret (gy, s) /\
      hard_drop_loop fuel 0 s = Ret (gy - current_y s, set_current_y gy s) /\
      move 0 1 (set_current_y gy s) = Ret (false, set_current_y gy s) /\
      get_ghost_y fuel (set_current_y gy s) = Ret (gy, set_current_y gy s).
Proof.
  intros Hwf Hp Hcat.
  destruct (catalog_lands s p Hcat) as (d & Hlands & Hbound).
  exists (current_y s + Z.of_nat d). split; [lia |].
  intros fuel Hfuel.
  assert (Hd : (d < fuel)%nat) by lia.
  set (s1 := set_current_y (current_y s + Z.of_nat d) s).
  assert (Hlands1 : lands (board s1) (current_x s1) (current_y s1) p 0).
  { subst s1. simpl_state. split; [lia |].
    destruct Hlands as [_ Hstop]. by rewrite Z.add_0_r. }
  split; [by apply (get_ghost_y_lands s p d fuel) |].
  split.
  { rewrite (hard_drop_loop_falls d s s1 (lands_falls p d s Hwf Hp Hlands) fuel 0 Hd).
    do 2 f_equal. lia. }
  split.
  { rewrite (move_down s1 p) by done.
    by rewrite (lands_0 _ _ _ _ Hlands1). }
  rewrite (get_ghost_y_lands s1 p 0 fuel) by (done || lia).
  subst s1. simpl_state. by rewrite Z.add_0_r.
Qed.

Section RandomizedFurther.

Variable shuffle : nat -> list Kind -> list Kind.

(** [random.shuffle] permutes the list of kinds it is given. *)
Hypothesis shuffle_perm :
  forall n : nat, shuffle n TETROMINOES_keys ≡ₚ TETROMINOES_keys.

(** ** The bag between two draws *)

(** X10. The bag never holds a kind twice and never more than 6 kinds
    between two draws: if that is so before [get_next_piece_type], it
    is so after it, the call returns, and the kind it returns is not in
    the bag any more (it cannot come again before the next refill).  A
    bag that is not empty is not reshuffled: the call takes its last
    element.  Nothing but the bag (and the random generator) changes. *)
Theorem get_next_piece_type_distinct (s : Tetris) :
  NoDup (bag s) -> (length (bag s) <= 6)%nat ->
  exists (k : Kind) (s' : Tetris),
    get_next_piece_type shuffle s = Ret (k, s') /\
    NoDup (bag s') /\ (length (bag s') <= 6)%nat /\ (k ∉ bag s') /\
    (bag s <> [] -> bag s = bag s' ++ [k] /\ shuffles s' = shuffles s) /\
    (bag s = [] -> bag s' ++ [k] = shuffle (shuffles s) TETROMINOES_keys) /\
    s' = set_bag (bag s') (set_shuffles (shuffles s') s).
Proof.
  intros Hnd Hlen.
  destruct (bag s) as [| k0 l _] eqn:Hb using rev_ind.
  - destruct (get_next_piece_type_refill shuffle shuffle_perm s Hb)
      as (b & k & Hs & Hdraw).
    pose proof (shuffle_perm (shuffles s)) as Hperm. rewrite Hs in Hperm.
    assert (Hnd' : NoDup (b ++ [k]))
      by (rewrite Hperm; apply TETROMINOES_keys_NoDup).
    pose proof (Permutation_length Hperm) as Hl.
    rewrite length_app in Hl. cbn in Hl.
    apply list.NoDup_app in Hnd' as (Hndb & Hnotin & _).
    exists k, (set_bag b (set_shuffles (S (shuffles s)) s)).
    split; [exact Hdraw |]. simpl_state.
    split; [exact Hndb |]. split; [lia |].
    split; [intros Hin; apply (Hnotin k Hin); by left |].
    split; [done |]. split; [by rewrite Hs |]. done.
  - rewrite (get_next_piece_type_pop shuffle s l k0 Hb).
    apply list.NoDup_app in Hnd as (Hndl & Hnotin & _).
    rewrite length_app in Hlen. cbn in Hlen.
    exists k0, (set_bag l s). split; [done |]. simpl_state.
    split; [exact Hndl |]. split; [lia |].
    split; [intros Hin; apply (Hnotin k0 Hin); by left |].
    split; [done |].
    split; [intros Hnil; by destruct l |]. by destruct s.
Qed.

(** ** Locking and dropping keep the game consistent *)

Lemma consistent_spawned (s0 : Tetris) (k k' : Kind) (p : layout)
    (b : list Kind) (n : nat) :
  wf_board (board s0) -> completed (board s0) = 0%nat ->
  0 <= lines_cleared s0 -> level s0 = lines_cleared s0 / 10 + 1 ->
  0 <= score s0 ->
  TETROMINOES k !! 0%nat = Some p ->
  consistent (spawned k k' p b n s0).
Proof.
  intros Hwf Hl Hlc Hlv Hsc Hp. unfold spawned. split; simpl_state; try done.
  - exists k. by repeat split.
  - intros p0 [= <-]. rewrite valid_at_fits by done. simpl_state.
    by destruct (fits (board s0) 3 0 p).
Qed.

Lemma cleared_fields (s : Tetris) :
  let n := Z.of_nat (completed (board s)) in
  lines_cleared (cleared s) = lines_cleared s + n /\
  score (cleared s) = score s + (if n =? 0 then 0 else reward n * level s) /\
  (level s = lines_cleared s / 10 + 1 ->
   level (cleared s) = lines_cleared (cleared s) / 10 + 1) /\
  game_over (cleared s) = game_over s /\
  next_type (cleared s) = next_type s.
Proof.
  intros n. unfold cleared. fold n.
  destruct (Z.gtb_spec n 0) as [Hpos | Hzero]; simpl_state.
  - replace (n =? 0) with false by (symmetry; apply Z.eqb_neq; lia). by repeat split.
  - assert (n = 0) as -> by lia. cbn. repeat split; try done; lia.
Qed.

Lemma reward_pos (n : Z) : 0 < reward n.
Proof. unfold reward. repeat (destruct (_ =? _); [lia |]). lia. Qed.

Lemma lock_piece_consistent (s : Tetris) :
  consistent s ->
  exists (n : Z) (s' : Tetris),
    lock_piece shuffle s = Ret (VNone, s') /\
    consistent s' /\
    0 <= n <= 4 /\
    lines_cleared s' = lines_cleared s + n /\
    score s' = score s + (if n =? 0 then 0 else reward n * level s) /\
    current_type s' = next_type s /\
    current_rotation s' = 0 /\ current_x s' = 3 /\ current_y s' = 0 /\
    (game_over s = true -> game_over s' = true).
Proof.
  intros Hc. destruct (consistent_layout s Hc) as (k0 & p & Hk0 & Hp & _ & Hlen4).
  destruct Hc as [Hwf Hl _ [kn Hn] [Hlc Hlv] Hsc _].
  set (s1 := set_board (locked_board (current_type s) (current_x s) (current_y s)
                          (board s) p) s).
  assert (Hwf1 : wf_board (board s1)) by by apply wf_board_locked_board.
  assert (Hn1 : (completed (board s1) <= 4)%nat).
  { pose proof (completed_locked_board (current_type s) (current_x s) (current_y s)
                  p (board s)) as H.
    subst s1. simpl_state. lia. }
  destruct (cleared_fields s1) as (Hlines & Hscore & Hlevel & Hgo & Hnext).
  assert (Hwf2 : wf_board (board (cleared s1)))
    by (rewrite board_cleared; by apply wf_board_compacted).
  destruct (spawn_piece_spawned shuffle shuffle_perm (cleared s1) Hwf2)
    as (k & k' & p' & b & m & Hkk & Hp' & Hspawn).
  exists (Z.of_nat (completed (board s1))), (spawned k k' p' b m (cleared s1)).
  split.
  { unfold lock_piece, bind, gets. rewrite Hp. cbn [not_none ret].
    rewrite (lock_piece_cells_locked p s Hwf). fold s1.
    rewrite (clear_lines_cleared s1 Hwf1). by rewrite Hspawn. }
  assert (Hlv1 : 1 <= level s).
  { rewrite Hlv. pose proof (Z.div_pos (lines_cleared s) 10 Hlc ltac:(lia)). lia. }
  assert (Hrew : 0 <= (if Z.of_nat (completed (board s1)) =? 0 then 0
                       else reward (Z.of_nat (completed (board s1))) * level s)).
  { destruct (_ =? _); [lia |].
    pose proof (reward_pos (Z.of_nat (completed (board s1)))).
    apply Z.mul_nonneg_nonneg; lia. }
  split.
  { apply consistent_spawned; try done.
    - rewrite board_cleared. apply completed_compacted.
    - rewrite Hlines. subst s1. simpl_state. lia.
    - by apply Hlevel.
    - rewrite Hscore. change (score s1) with (score s).
      change (level s1) with (level s). lia. }
  unfold spawned. simpl_state.
  split; [lia |]. split; [exact Hlines |]. split; [exact Hscore |].
  split.
  { rewrite Hn. f_equal. apply Hkk. by rewrite Hnext. }
  repeat split; try done.
  intros Hover. rewrite Hgo. subst s1. simpl_state. rewrite Hover.
  by destruct (fits _ 3 0 p').
Qed.

(** X11. [lock_piece] always returns on a consistent game and leaves a
    consistent game.  It clears between 0 and 4 lines, adds the reward
    of these lines (at the level before the call) to the score, makes
    the previewed kind the active piece at rotation 0 and offset (3, 0),
    and never takes [game_over] back. *)
Theorem lock_piece_keeps_consistent (s : Tetris) :
  consistent s ->
  exists (n : Z) (s' : Tetris),
    lock_piece shuffle s = Ret (VNone, s') /\
    consistent s' /\
    0 <= n <= 4 /\
    lines_cleared s' = lines_cleared s + n /\
    score s' = score s + (if n =? 0 then 0 else reward n * level s) /\
    current_type s' = next_type s /\
    current_rotation s' = 0 /\ current_x s' = 3 /\ current_y s' = 0 /\
    (game_over s = true -> game_over s' = true).
Proof. apply lock_piece_consistent. Qed.

Lemma consistent_dropped (s : Tetris) (p : layout) (d : nat) (sc : Z) :
  consistent s -> current_piece s = Some p ->
  lands (board s) (current_x s) (current_y s) p d -> 0 <= sc ->
  consistent (set_score sc (set_current_y (current_y s + Z.of_nat d) s)).
Proof.
  intros [Hwf Hl Hk Hn Hlv Hsc Hpl] Hp [Hfits _] Hsc'.
  split; simpl_state; try done.
  intros p0 Hp0 Hgo. rewrite valid_at_fits by done. simpl_state.
  assert (p0 = p) as -> by congruence.
  destruct d as [| d].
  - rewrite Z.add_0_r. rewrite <- (valid_at_fits s) by done. by apply Hpl.
  - apply Hfits. lia.
Qed.

Lemma hard_drop_dropped (s : Tetris) (fuel : nat) :
  consistent s ->
  Z.max 0 (BOARD_HEIGHT - 1 - current_y s) < Z.of_nat fuel ->
  exists (d : nat) (n : Z) (s' : Tetris),
    falls d s (set_current_y (current_y s + Z.of_nat d) s) /\
    hard_drop_loop fuel 0 s
      = Ret (Z.of_nat d, set_current_y (current_y s + Z.of_nat d) s) /\
    lock_piece shuffle
      (set_score (score s + 2 * Z.of_nat d)
         (set_current_y (current_y s + Z.of_nat d) s)) = Ret (VNone, s') /\
    hard_drop shuffle fuel s = Ret (VNone, s') /\
    consistent s' /\
    Z.of_nat d <= Z.max 0 (BOARD_HEIGHT - 1 - current_y s) /\
    0 <= n <= 4 /\
    lines_cleared s' = lines_cleared s + n /\
    score s' = score s + 2 * Z.of_nat d
               + (if n =? 0 then 0 else reward n * level s) /\
    score s <= score s' /\
    current_type s' = next_type s /\
    (game_over s = true -> game_over s' = true).
Proof.
  intros Hc Hfuel.
  destruct (consistent_layout s Hc) as (k & p & _ & Hp & Hcat & _).
  destruct (catalog_lands s p Hcat) as (d & Hlands & Hbound).
  pose proof (lands_falls p d s (consistent_board s Hc) Hp Hlands) as Hfalls.
  set (s1 := set_score (score s + 2 * Z.of_nat d)
               (set_current_y (current_y s + Z.of_nat d) s)).
  assert (Hc1 : consistent s1).
  { apply (consistent_dropped s p d); try done.
    pose proof (consistent_score s Hc). lia. }
  destruct (lock_piece_consistent s1 Hc1)
    as (n & s' & Hlock & Hc' & Hn & Hlines & Hscore & Htype & _ & _ & _ & Hover).
  exists d, n, s'.
  split; [exact Hfalls |].
  split.
  { by rewrite (hard_drop_loop_falls d s _ Hfalls fuel 0) by lia. }
  split; [exact Hlock |].
  split.
  { rewrite (hard_drop_falls shuffle _ _ d fuel Hfalls) by lia.
    simpl_state. fold s1. unfold bind. by rewrite Hlock. }
  split; [exact Hc' |]. split; [exact Hbound |]. split; [exact Hn |].
  split; [exact Hlines |].
  change (score s1) with (score s + 2 * Z.of_nat d) in Hscore.
  change (level s1) with (level s) in Hscore.
  split; [lia |].
  split.
  { rewrite Hscore. destruct (n =? 0); [lia |].
    pose proof (reward_pos n).
    destruct (consistent_level s Hc) as [Hlc Hlv].
    pose proof (Z.div_pos (lines_cleared s) 10 Hlc ltac:(lia)).
    assert (0 <= reward n * level s) by (apply Z.mul_nonneg_nonneg; lia).
    lia. }
  split; [exact Htype |]. exact Hover.
Qed.

Lemma hard_drop_consistent (s : Tetris) (fuel : nat) :
  consistent s ->
  Z.max 0 (BOARD_HEIGHT - 1 - current_y s) < Z.of_nat fuel ->
  exists (d n : Z) (s' : Tetris),
    hard_drop shuffle fuel s = Ret (VNone, s') /\
    consistent s' /\
    0 <= d <= Z.max 0 (BOARD_HEIGHT - 1 - current_y s) /\
    0 <= n <= 4 /\
    lines_cleared s' = lines_cleared s + n /\
    score s' = score s + 2 * d + (if n =? 0 then 0 else reward n * level s) /\
    score s <= score s' /\
    current_type s' = next_type s /\
    (game_over s = true -> game_over s' = true).
Proof.
  intros Hc Hfuel.
  destruct (hard_drop_dropped s fuel Hc Hfuel)
    as (d & n & s' & _ & _ & _ & Hd & Hc' & Hb & Hn & Hl & Hs & Hle & Ht & Hgo).
  exists (Z.of_nat d), n, s'.
  split; [exact Hd |]. split; [exact Hc' |]. split; [lia |]. split; [exact Hn |].
  split; [exact Hl |]. split; [exact Hs |]. split; [exact Hle |].
  split; [exact Ht | exact Hgo].
Qed.

(** X12. [hard_drop] always returns on a consistent game and leaves a
    consistent game.  Its loop makes exactly [d] steps, where [d] is the
    number of times [move(0, 1)] succeeds in a row from the state before
    the call, at most [BOARD_HEIGHT - 1 - current_y]; the piece is
    locked [d] rows lower, after [2 * d] is added to the score.  With
    [n] lines cleared, [0 <= n <= 4], the score grows by exactly
    [2 * d] plus the reward of the [n] lines at the level before the
    call, so it never decreases; the previewed kind becomes the active
    one, and [game_over] is never taken back. *)
Theorem hard_drop_keeps_consistent (s : Tetris) (fuel : nat) :
  consistent s ->
  Z.max 0 (BOARD_HEIGHT - 1 - current_y s) < Z.of_nat fuel ->
  exists (d : nat) (n : Z) (s' : Tetris),
    falls d s (set_current_y (current_y s + Z.of_nat d) s) /\
    hard_drop_loop fuel 0 s
      = Ret (Z.of_nat d, set_current_y (current_y s + Z.of_nat d) s) /\
    lock_piece shuffle
      (set_score (score s + 2 * Z.of_nat d)
         (set_current_y (current_y s + Z.of_nat d) s)) = Ret (VNone, s') /\
    hard_drop shuffle fuel s = Ret (VNone, s') /\
    consistent s' /\
    Z.of_nat d <= Z.max 0 (BOARD_HEIGHT - 1 - current_y s) /\
    0 <= n <= 4 /\
    lines_cleared s' = lines_cleared s + n /\
    score s' = score s + 2 * Z.of_nat d
               + (if n =? 0 then 0 else reward n * level s) /\
    score s <= score s' /\
    current_type s' = next_type s /\
    (game_over s = true -> game_over s' = true).
Proof. by apply hard_drop_dropped. Qed.

(** ** The constructor *)

Lemma fits_spawn_empty (k : Kind) (p : layout) :
  TETROMINOES k !! 0%nat = Some p -> fits empty_board 3 0 p = true.
Proof. destruct k; intros [= <-]; by vm_compute. Qed.

Lemma shuffle_keys_three (n : nat) :
  exists (b : list Kind) (k3 k2 k1 : Kind),
    shuffle n TETROMINOES_keys = b ++ [k3; k2; k1] /\ length b = 4%nat.
Proof.
  pose proof (Permutation_length (shuffle_perm n)) as Hlen.
  destruct (shuffle n TETROMINOES_keys) as [| k1 l1 _] using rev_ind; [done |].
  destruct l1 as [| k2 l2 _] using rev_ind; [done |].
  destruct l2 as [| k3 l3 _] using rev_ind; [done |].
  exists l3, k3, k2, k1. rewrite !length_app in Hlen. cbn in Hlen.
  split; [by rewrite <- !app_assoc | lia].
Qed.

Lemma spawn_piece_first (s s1 s2 : Tetris) (k k' : Kind) (p : layout) :
  next_type s = None ->
  get_next_piece_type shuffle s = Ret (k, s1) ->
  get_next_piece_type shuffle (set_current_type (Some k) s1) = Ret (k', s2) ->
  current_type s2 = Some k ->
  getitem (TETROMINOES k) 0 = Ret p ->
  wf_board (board s2) ->
  spawn_piece shuffle s =
    Ret (VNone,
         (if fits (board s2) 3 0 p then fun s3 => s3 else set_game_over true)
           (set_current_y 0
              (set_current_x 3
                 (set_current_piece (Some p)
                    (set_current_rotation 0 (set_next_type (Some k') s2)))))).
Proof.
  intros Hnt Hd1 Hd2 Hk Hget Hwf.
  unfold spawn_piece. unfold bind at 1. unfold gets at 1. rewrite Hnt.
  unfold bind at 1. unfold bind at 1. rewrite Hd1.
  unfold modify at 1. unfold bind at 1. rewrite Hd2.
  unfold bind, gets, modify. simpl_state. rewrite Hk. cbn [not_none ret].
  rewrite Hget. cbn [lift not_none ret]. simpl_state.
  rewrite is_valid_position_fits by (by simpl_state).
  simpl_state. change (BOARD_WIDTH / 2 - 2) with 3.
  by destruct (fits (board s2) 3 0 p).
Qed.

Lemma init_spec (n : nat) :
  exists (b : list Kind) (k3 k2 k1 : Kind) (s : Tetris),
    shuffle n TETROMINOES_keys = b ++ [k3; k2; k1] /\
    init shuffle n = Ret (VNone, s) /\
    consistent s /\
    board s = empty_board /\
    score s = 0 /\ level s = 1 /\ lines_cleared s = 0 /\
    game_over s = false /\ paused s = false /\
    current_type s = Some k1 /\ next_type s = Some k3 /\
    bag s = b /\ length (bag s) = 4%nat /\
    current_rotation s = 0 /\ current_x s = 3 /\ current_y s = 0.
Proof.
  destruct (shuffle_keys_three n) as (b & k3 & k2 & k1 & Hs & Hlen).
  destruct (TETROMINOES_spawn k1) as (p & Hp & Hget).
  pose proof (fits_spawn_empty k1 p Hp) as Hfit.
  exists b, k3, k2, k1,
    {| board := empty_board; score := 0; level := 1; lines_cleared := 0;
       game_over := false; paused := false; bag := b;
       current_piece := Some p; current_type := Some k1;
       current_rotation := 0; current_x := 3; current_y := 0;
       next_type := Some k3; shuffles := S n |}.
  split; [exact Hs |].
  split.
  { unfold init. unfold bind at 1.
    match goal with
    | |- context [spawn_piece shuffle ?s0] => set (s0' := s0)
    end.
    destruct (get_next_piece_type_refill shuffle shuffle_perm s0' eq_refl)
      as (b1 & k1' & Hs1 & Hd1).
    change (shuffles s0') with n in Hs1, Hd1.
    rewrite Hs in Hs1.
    replace (b ++ [k3; k2; k1]) with ((b ++ [k3; k2]) ++ [k1]) in Hs1
      by (by rewrite <- app_assoc).
    apply app_inj_tail in Hs1 as [<- <-].
    set (sA := set_bag (b ++ [k3; k2]) (set_shuffles (S n) s0')) in *.
    assert (Hd2 : get_next_piece_type shuffle (set_current_type (Some k1) sA) =
                  Ret (k2, set_bag (b ++ [k3]) (set_current_type (Some k1) sA))).
    { apply get_next_piece_type_pop. subst sA. simpl_state.
      by rewrite <- app_assoc. }
    rewrite (spawn_piece_first s0' _ _ k1 k2 p eq_refl Hd1 Hd2 eq_refl Hget
               wf_board_empty).
    subst sA s0'.
    simpl_state.
    change (replicate (Z.to_nat BOARD_HEIGHT) empty_row) with empty_board.
    rewrite Hfit.
    unfold bind at 1.
    rewrite (get_next_piece_type_pop shuffle _ b k3) by done.
    unfold bind, modify. by simpl_state. }
  simpl_state.
  split.
  { split; simpl_state; try done.
    - apply wf_board_empty.
    - exists k1. by repeat split.
    - intros p0 [= <-] _. rewrite valid_at_fits by apply wf_board_empty.
      by simpl_state. }
  by repeat split.
Qed.

(** X13. [Tetris()] returns a consistent game, whatever the shuffle:
    empty board, score 0, level 1, not over, the first piece at
    rotation 0 and offset (3, 0), a valid position.  It draws three
    kinds from the fresh bag: the first is the active piece, the second
    is previewed only until the constructor overwrites it with the
    third, so the second kind of the first bag is never played; four
    kinds are left in the bag. *)
Theorem init_consistent (n : nat) :
  exists (b : list Kind) (k3 k2 k1 : Kind) (s : Tetris),
    shuffle n TETROMINOES_keys = b ++ [k3; k2; k1] /\
    init shuffle n = Ret (VNone, s) /\
    consistent s /\
    board s = empty_board /\
    score s = 0 /\ level s = 1 /\ lines_cleared s = 0 /\
    game_over s = false /\ paused s = false /\
    current_type s = Some k1 /\ next_type s = Some k3 /\
    bag s = b /\ length (bag s) = 4%nat /\
    current_rotation s = 0 /\ current_x s = 3 /\ current_y s = 0.
Proof. by apply init_spec. Qed.

End RandomizedFurther.

(** ** The drop speed *)

(** X14. [get_drop_speed] reads the level and changes nothing.  From
    level 1 on the delay never grows with the level: it falls from 1.0
    to 0.1, where it stays from level 10 on. *)
Theorem get_drop_speed_monotone (s s' : Tetris) :
  1 <= level s -> level s <= level s' ->
  exists v v' : Q,
    get_drop_speed s = Ret (v, s) /\
    get_drop_speed s' = Ret (v', s') /\
    (0.1 <= v')%Q /\ (v' <= v)%Q /\ (v <= 1.0)%Q /\
    (level s = 1 -> v = 1.0%Q) /\
    (10 <= level s' -> v' = 0.1%Q).
Proof.
  intros H1 Hle. unfold get_drop_speed, bind, gets, ret.
  eexists _, _. split; [reflexivity |]. split; [reflexivity |].
  assert (Hcases : forall l, 1 <= l ->
            Z.min l 10 = 1 \/ Z.min l 10 = 2 \/ Z.min l 10 = 3 \/
            Z.min l 10 = 4 \/ Z.min l 10 = 5 \/ Z.min l 10 = 6 \/
            Z.min l 10 = 7 \/ Z.min l 10 = 8 \/ Z.min l 10 = 9 \/
            Z.min l 10 = 10) by (intros l Hl; lia).
  assert (Hmin : Z.min (level s) 10 <= Z.min (level s') 10) by lia.
  assert (H10 : 10 <= level s' -> Z.min (level s') 10 = 10) by lia.
  assert (H11 : level s = 1 -> Z.min (level s) 10 = 1) by lia.
  destruct (Hcases (level s) H1) as [E|[E|[E|[E|[E|[E|[E|[E|[E|E]]]]]]]]];
    destruct (Hcases (level s') ltac:(lia)) as [E'|[E'|[E'|[E'|[E'|[E'|[E'|[E'|[E'|E']]]]]]]]];
    rewrite E, E' in *; try lia;
    (split; [by vm_compute |]); (split; [by vm_compute |]);
    (split; [by vm_compute |]);
    (split; [intros Hl; specialize (H11 Hl); first [reflexivity | lia] |]);
    (intros Hl; specialize (H10 Hl); first [reflexivity | lia]).
Qed.

(** X15. A level below 1, which no game reaches, falls outside the
    table of [get_drop_speed] and gets the fastest delay, 0.1. *)
Theorem get_drop_speed_default (s : Tetris) :
  level s < 1 ->
  get_drop_speed s = Ret (0.1%Q, s).
Proof.
  intros Hl. unfold get_drop_speed, bind, gets, ret.
  replace (Z.min (level s) 10) with (level s) by lia.
  unfold speeds.
  repeat match goal with
         | |- context [?a =? ?b] =>
             destruct (Z.eqb_spec a b) as [He | _]; [lia |]
         end.
  reflexivity.
Qed.

(** ** The loop of [main] *)

Lemma advances_refl (s : Tetris) : consistent s -> advances s s.
Proof. intros Hc. split; [done |]. split; [lia |]. split; [lia |]. by split. Qed.

Lemma advances_trans (s1 s2 s3 : Tetris) :
  advances s1 s2 -> advances s2 s3 -> advances s1 s3.
Proof.
  intros (_ & Hs & Hl & Hg & Hy) (Hc & Hs' & Hl' & Hg' & Hy').
  split; [done |]. split; [lia |]. split; [lia |]. split; auto.
Qed.

Lemma move_advances (s : Tetris) (dx dy : Z) :
  consistent s -> 0 <= dy ->
  exists (ok : bool) (s' : Tetris), move dx dy s = Ret (ok, s') /\ advances s s'.
Proof.
  intros Hc Hdy.
  destruct (move_consistent s dx dy Hc) as (ok & s' & Hm & Hc' & Heq & Hyes & Hno).
  exists ok, s'. split; [done |]. split; [done |].
  assert (Hy : current_y s <= current_y s').
  { destruct ok; [destruct (Hyes eq_refl); lia | by rewrite (Hno eq_refl)]. }
  rewrite Heq. simpl_state. repeat split; (done || lia).
Qed.

Lemma rotate_advances (s : Tetris) :
  consistent s ->
  exists (ok : bool) (s' : Tetris), rotate s = Ret (ok, s') /\ advances s s'.
Proof.
  intros Hc. destruct (rotate_consistent s Hc) as (ok & s' & Hm & Hc' & Heq & _).
  destruct (consistent_layout s Hc) as (k & _ & Hk & _).
  destruct (rotate_kick s k (consistent_board s Hc) Hk) as (ok' & s'' & Hm' & _ & Hy).
  rewrite Hm in Hm'. injection Hm' as <- <-.
  exists ok, s'. split; [done |]. split; [done |].
  assert (Hy' : -4 <= current_y s -> -4 <= current_y s') by lia.
  rewrite Heq. simpl_state. repeat split; (done || lia).
Qed.

Lemma consistent_set_score (s : Tetris) (sc : Z) :
  consistent s -> 0 <= sc -> consistent (set_score sc s).
Proof.
  intros [Hwf Hl Hk Hn Hlv Hsc Hpl] Hsc'. split; simpl_state; try done.
  intros p Hp Hgo. rewrite valid_at_fits by done. simpl_state.
  rewrite <- (valid_at_fits s) by done. by apply Hpl.
Qed.

Lemma consistent_set_paused (s : Tetris) (v : bool) :
  consistent s -> consistent (set_paused v s).
Proof.
  intros [Hwf Hl Hk Hn Hlv Hsc Hpl]. split; try done.
  intros p Hp Hgo. rewrite valid_at_fits by done.
  rewrite <- (valid_at_fits s) by done. by apply Hpl.
Qed.

Section DriverProperties.

Variables KEY_LEFT KEY_RIGHT KEY_DOWN KEY_UP : Z.
Variable shuffle : nat -> list Kind -> list Kind.
Hypothesis shuffle_perm :
  forall n : nat, shuffle n TETROMINOES_keys ≡ₚ TETROMINOES_keys.

Lemma lock_piece_advances (s : Tetris) :
  consistent s ->
  exists s' : Tetris, lock_piece shuffle s = Ret (VNone, s') /\ advances s s'.
Proof.
  intros Hc.
  destruct (lock_piece_consistent shuffle shuffle_perm s Hc)
    as (n & s' & Hlock & Hc' & Hn & Hlines & Hscore & _ & _ & _ & Hy & Hover).
  exists s'. split; [done |]. split; [done |].
  split; [| split; [lia | split; [done | lia]]].
  rewrite Hscore. destruct (n =? 0); [lia |].
  pose proof (reward_pos n).
  destruct (consistent_level s Hc) as [Hlc Hlv].
  pose proof (Z.div_pos (lines_cleared s) 10 Hlc ltac:(lia)).
  assert (0 <= reward n * level s) by (apply Z.mul_nonneg_nonneg; lia).
  lia.
Qed.

Lemma hard_drop_respawn (s : Tetris) (fuel : nat) :
  consistent s ->
  Z.max 0 (BOARD_HEIGHT - 1 - current_y s) < Z.of_nat fuel ->
  exists s' : Tetris,
    hard_drop shuffle fuel s = Ret (VNone, s') /\ current_y s' = 0.
Proof.
  intros Hc Hfuel.
  destruct (consistent_layout s Hc) as (k & p & _ & Hp & Hcat & _).
  destruct (catalog_lands s p Hcat) as (d & Hlands & Hbound).
  pose proof (lands_falls p d s (consistent_board s Hc) Hp Hlands) as Hfalls.
  set (s1 := set_score (score s + 2 * Z.of_nat d)
               (set_current_y (current_y s + Z.of_nat d) s)).
  assert (Hc1 : consistent s1).
  { apply (consistent_dropped s p d); try done.
    pose proof (consistent_score s Hc). lia. }
  destruct (lock_piece_consistent shuffle shuffle_perm s1 Hc1)
    as (n & s' & Hlock & _ & _ & _ & _ & _ & _ & _ & Hy & _).
  exists s'. split; [| exact Hy].
  rewrite (hard_drop_falls shuffle _ _ d fuel Hfalls) by lia.
  simpl_state. fold s1. unfold bind. by rewrite Hlock.
Qed.

Lemma hard_drop_advances (s : Tetris) (fuel : nat) :
  consistent s ->
  Z.max 0 (BOARD_HEIGHT - 1 - current_y s) < Z.of_nat fuel ->
  exists s' : Tetris, hard_drop shuffle fuel s = Ret (VNone, s') /\ advances s s'.
Proof.
  intros Hc Hfuel.
  destruct (hard_drop_consistent shuffle shuffle_perm s fuel Hc Hfuel)
    as (d & n & s' & Hd & Hc' & _ & Hn & Hlines & _ & Hscore & _ & Hover).
  destruct (hard_drop_respawn s fuel Hc Hfuel) as (s'' & Hd' & Hy).
  rewrite Hd in Hd'. injection Hd' as <-.
  exists s'. split; [done |]. split; [done |]. split; [done |].
  split; [lia |]. split; [done | lia].
Qed.

(** The [# Auto drop] block. *)
Lemma auto_drop_advances (s : Tetris) (due : bool) :
  consistent s ->
  exists s' : Tetris,
    (let! pa := gets paused in
     let! go := gets game_over in
     (if negb pa && negb go then
        if due then
          let! ok := move 0 1 in
          if negb ok then lock_piece shuffle >> ret tt else ret tt
        else ret tt
      else ret tt) >>
     ret false) s = Ret (false, s') /\
    advances s s' /\
    (paused s = true -> s' = s).
Proof.
  intros Hc. unfold bind at 1, gets at 1. unfold bind at 1, gets at 1.
  destruct (paused s) eqn:Hpa; cbn [negb andb].
  { exists s. split; [done |]. split; [by apply advances_refl | done]. }
  destruct (game_over s) eqn:Hgo; cbn [negb andb].
  { exists s. split; [done |]. split; [by apply advances_refl | done]. }
  destruct due.
  2: { exists s. split; [done |]. split; [by apply advances_refl | done]. }
  destruct (move_advances s 0 1 Hc ltac:(lia)) as (ok & s1 & Hm & Ha1).
  unfold bind. rewrite Hm.
  destruct ok; cbn [negb].
  - exists s1. split; [done |]. split; [done | done].
  - destruct (lock_piece_advances s1 (proj1 Ha1)) as (s2 & Hl & Ha2).
    rewrite Hl.
    exists s2. split; [done |]. split; [by apply (advances_trans s s1) | done].
Qed.

Lemma main_iteration_advances (s : Tetris) (fuel : nat) (key : Z) (due : bool) :
  consistent s ->
  Z.max 0 (BOARD_HEIGHT - 1 - current_y s) < Z.of_nat fuel ->
  exists (quit : bool) (s' : Tetris),
    main_iteration KEY_LEFT KEY_RIGHT KEY_DOWN KEY_UP shuffle fuel key due s
      = Ret (quit, s') /\
    advances s s' /\
    quit = key_in key [ord_q; ord_Q] /\
    (quit = true -> s' = s).
Proof.
  intros Hc Hfuel. unfold main_iteration.
  destruct (key_in key [ord_q; ord_Q]).
  { exists true, s. split; [done |]. split; [by apply advances_refl | done]. }
  assert (Hkey : exists s1 : Tetris,
    (if key_in key [ord_p; ord_P]
     then modify (fun s0 => set_paused (negb (paused s0)) s0)
     else
       let! pa := gets paused in
       if negb pa
       then
         if key_in key [KEY_LEFT; ord_a; ord_A] then move (-1) 0 >> ret tt
         else if key_in key [KEY_RIGHT; ord_d; ord_D] then move 1 0 >> ret tt
         else if key_in key [KEY_DOWN; ord_s; ord_S]
         then let! ok := move 0 1 in
              if ok then modify (fun s0 => set_score (score s0 + 1) s0) else ret tt
         else if key_in key [KEY_UP; ord_w; ord_W] then rotate >> ret tt
         else if key =? ord_space then hard_drop shuffle fuel >> ret tt
         else ret tt
       else ret tt) s = Ret (tt, s1) /\ advances s s1).
  { destruct (key_in key [ord_p; ord_P]).
    { eexists. split; [reflexivity |].
      split; [by apply consistent_set_paused |].
      cbn. split; [lia |]. split; [lia |]. by split. }
    unfold bind at 1, gets at 1.
    destruct (paused s); cbn [negb].
    { exists s. split; [done |]. by apply advances_refl. }
    destruct (key_in key [KEY_LEFT; ord_a; ord_A]).
    { destruct (move_advances s (-1) 0 Hc ltac:(lia)) as (ok & s1 & Hm & Ha).
      exists s1. unfold bind. rewrite Hm. by split. }
    destruct (key_in key [KEY_RIGHT; ord_d; ord_D]).
    { destruct (move_advances s 1 0 Hc ltac:(lia)) as (ok & s1 & Hm & Ha).
      exists s1. unfold bind. rewrite Hm. by split. }
    destruct (key_in key [KEY_DOWN; ord_s; ord_S]).
    { destruct (move_advances s 0 1 Hc ltac:(lia)) as (ok & s1 & Hm & Ha).
      unfold bind. rewrite Hm. destruct ok.
      - eexists. split; [reflexivity |].
        destruct Ha as (Hc1 & Hs1 & Hl1 & Hg1 & Hy1).
        pose proof (consistent_score s Hc).
        split; [apply consistent_set_score; [done | lia] |].
        simpl_state. split; [lia |]. by repeat split.
      - exists s1. by split. }
    destruct (key_in key [KEY_UP; ord_w; ord_W]).
    { destruct (rotate_advances s Hc) as (ok & s1 & Hm & Ha).
      exists s1. unfold bind. rewrite Hm. by split. }
    destruct (key =? ord_space).
    { destruct (hard_drop_advances s fuel Hc Hfuel) as (s1 & Hm & Ha).
      exists s1. unfold bind. rewrite Hm. by split. }
    exists s. split; [done |]. by apply advances_refl. }
  destruct Hkey as (s1 & Hkey & Ha1).
  unfold bind at 1. rewrite Hkey.
  destruct (auto_drop_advances s1 due (proj1 Ha1)) as (s2 & Hauto & Ha2 & _).
  rewrite Hauto.
  exists false, s2. split; [done |].
  split; [by apply (advances_trans s s1) | done].
Qed.

(** X16. One pass of the loop of [main] on a consistent game always
    returns and leaves a consistent game, for every key, whatever the
    clock says: the score and the number of cleared lines never
    decrease, [game_over] is never taken back, and a piece that is at
    row offset -4 or lower is not lifted above -4.  The loop is left
    exactly on [q] and [Q], and then the game is untouched. *)
Theorem main_iteration_keeps_consistent (s : Tetris) (fuel : nat) (key : Z) (due : bool) :
  consistent s ->
  Z.max 0 (BOARD_HEIGHT - 1 - current_y s) < Z.of_nat fuel ->
  exists (quit : bool) (s' : Tetris),
    main_iteration KEY_LEFT KEY_RIGHT KEY_DOWN KEY_UP shuffle fuel key due s
      = Ret (quit, s') /\
    advances s s' /\
    quit = key_in key [ord_q; ord_Q] /\
    (quit = true -> s' = s).
Proof. by apply main_iteration_advances. Qed.

(** X17. A paused game stands still: while [paused] is set, a pass of
    the loop of [main] with any key but [p] and [P] leaves every
    attribute of the game as it is, whether the clock says a drop is
    due or not. *)
Theorem main_iteration_paused (s : Tetris) (fuel : nat) (key : Z) (due : bool) :
  paused s = true -> key_in key [ord_p; ord_P] = false ->
  main_iteration KEY_LEFT KEY_RIGHT KEY_DOWN KEY_UP shuffle fuel key due s
    = Ret (key_in key [ord_q; ord_Q], s).
Proof.
  intros Hpa Hkey. unfold main_iteration.
  destruct (key_in key [ord_q; ord_Q]); [done |].
  rewrite Hkey. unfold bind, gets. rewrite Hpa. cbn [negb andb ret].
  by rewrite Hpa.
Qed.

(** X18. A soft drop is worth one point for a row: in a game with an
    active piece on a Playfield that is not paused, on a down key (one that is not also a quit,
    pause, left or right key) and with no automatic drop due, a pass of
    the loop moves the piece one row down and adds 1 to the score when
    that position is valid, and otherwise changes nothing: a rejected
    soft drop does not lock the piece. *)
Theorem main_iteration_soft_drop (s : Tetris) (p : layout) (fuel : nat) (key : Z) :
  wf_board (board s) -> current_piece s = Some p -> paused s = false ->
  key_in key [ord_q; ord_Q] = false -> key_in key [ord_p; ord_P] = false ->
  key_in key [KEY_LEFT; ord_a; ord_A] = false ->
  key_in key [KEY_RIGHT; ord_d; ord_D] = false ->
  key_in key [KEY_DOWN; ord_s; ord_S] = true ->
  exists ok : bool,
    is_valid_position (current_x s) (current_y s + 1) p s = Ret (ok, s) /\
    main_iteration KEY_LEFT KEY_RIGHT KEY_DOWN KEY_UP shuffle fuel key false s =
      Ret (false,
           if ok then set_score (score s + 1) (set_current_y (current_y s + 1) s)
           else s).
Proof.
  intros Hwf Hp Hpa Hq Hpp Hl Hr Hd.
  exists (fits (board s) (current_x s) (current_y s + 1) p).
  split; [by apply is_valid_position_fits |].
  unfold main_iteration. rewrite Hq, Hpp.
  unfold bind at 1. unfold bind at 1, gets at 1. rewrite Hpa. cbn [negb].
  rewrite Hl, Hr, Hd. unfold bind at 1. rewrite (move_down s p Hwf Hp).
  destruct (fits _ _ _ _).
  - unfold modify, bind, gets. simpl_state. rewrite Hpa.
    by destruct (game_over s).
  - unfold bind, gets. cbn [ret]. rewrite ?Hpa. by destruct (game_over s).
Qed.

(** X19. The loop of [main], drawing and clock apart, never fails on
    the game: started on a new [Tetris()] and fed any finite sequence
    of keys and clock outcomes, restarts included, no method of the
    game raises an exception, whatever the shuffles, and 24 rounds are
    enough for every dropping loop.  The game held at the end is
    consistent, with the active piece at row offset -4 or below. *)
Theorem main_loop_never_raises (n : nat) (fuel : nat) (inputs : list (Z * bool)) :
  (23 < fuel)%nat ->
  exists (s0 : Tetris) (done : bool) (s' : Tetris),
    init shuffle n = Ret (VNone, s0) /\
    main_loop KEY_LEFT KEY_RIGHT KEY_DOWN KEY_UP shuffle fuel inputs s0
      = Ret (done, s') /\
    consistent s' /\ -4 <= current_y s'.
Proof.
  intros Hfuel.
  assert (Hloop : forall (s : Tetris),
            consistent s -> -4 <= current_y s ->
            exists (done : bool) (s' : Tetris),
              main_loop KEY_LEFT KEY_RIGHT KEY_DOWN KEY_UP shuffle fuel inputs s
                = Ret (done, s') /\
              consistent s' /\ -4 <= current_y s').
  { induction inputs as [| [key due] rest IH]; intros s Hc Hy.
    { exists false, s. split; [done |]. split; [exact Hc | exact Hy]. }
    cbn [main_loop]. unfold bind at 1, gets at 1.
    destruct (game_over s).
    - destruct (key_in key [ord_q; ord_Q]); [exists true, s; split; [done |]; split; [exact Hc | exact Hy] |].
      destruct (key_in key [ord_r; ord_R]); [| by apply IH].
      destruct (init_spec shuffle shuffle_perm (shuffles s))
        as (b & k3 & k2 & k1 & s1 & _ & Hinit & Hc1 & Hrest).
      unfold bind. rewrite Hinit. apply IH; [done |].
      destruct Hrest as (_ & _ & _ & _ & _ & _ & _ & _ & _ & _ & _ & _ & ->). lia.
    - destruct (main_iteration_advances s fuel key due Hc) as
        (quit & s1 & Hrun & (Hc1 & _ & _ & _ & Hy1) & _ & _).
      { unfold BOARD_HEIGHT. lia. }
      unfold bind. rewrite Hrun.
      destruct quit;
        [exists true, s1; split; [done |]; split; [exact Hc1 | by apply Hy1] |].
      apply IH; [done | by apply Hy1]. }
  destruct (init_spec shuffle shuffle_perm n)
    as (b & k3 & k2 & k1 & s0 & _ & Hinit & Hc0 & Hrest).
  destruct (Hloop s0 Hc0) as (done & s' & Hrun & Hc' & Hy').
  { destruct Hrest as (_ & _ & _ & _ & _ & _ & _ & _ & _ & _ & _ & _ & ->). lia. }
  exists s0, done, s'.
  split; [exact Hinit |]. split; [exact Hrun |]. split; [exact Hc' | exact Hy'].
Qed.

End DriverProperties.

(** ** The further properties at work on the scenarios *)

Lemma consistent_new_game_O : consistent new_game_O.
Proof.
  split.
  - exact wf_board_empty.
  - reflexivity.
  - exists KO. repeat split; (lia || reflexivity).
  - by eexists.
  - split; [cbn; lia | reflexivity].
  - cbn; lia.
  - intros p [= <-] _. vm_compute. reflexivity.
Qed.

Lemma consistent_tower_game : consistent tower_game.
Proof.
  split.
  - exact wf_board_tower.
  - reflexivity.
  - exists KO. repeat split; (lia || reflexivity).
  - by eexists.
  - split; [cbn; lia | reflexivity].
  - cbn; lia.
  - intros p [= <-] _. vm_compute. reflexivity.
Qed.

Lemma consistent_kick_start : consistent kick_start.
Proof.
  split.
  - exact wf_board_kick.
  - reflexivity.
  - exists KT. repeat split; (lia || reflexivity).
  - by eexists.
  - split; [cbn; lia | reflexivity].
  - cbn; lia.
  - intros p [= <-] _. vm_compute. reflexivity.
Qed.

(** Locking the O piece of [tower_game]. *)
Lemma lock_piece_cells_writes_witness :
  wf_board (board tower_game) /\
  exists s' : Tetris,
    lock_piece_cells [(1, 0); (2, 0); (1, 1); (2, 1)] tower_game = Ret (tt, s') /\
    cell_at (board s') 4 0 = Some (Some KO) /\
    cell_at (board s') 3 0 = Some None.
Proof.
  split; [exact wf_board_tower |].
  destruct (lock_piece_cells_writes tower_game [(1, 0); (2, 0); (1, 1); (2, 1)]
              wf_board_tower) as (s' & Hs' & _ & Hcells & _).
  exists s'. split; [exact Hs' |]. split.
  - rewrite (Hcells 4 0) by (unfold in_grid, BOARD_WIDTH, BOARD_HEIGHT; lia).
    reflexivity.
  - rewrite (Hcells 3 0) by (unfold in_grid, BOARD_WIDTH, BOARD_HEIGHT; lia).
    reflexivity.
Defined.

(** The locked O piece of [tower_game] blocks its place. *)
Lemma lock_piece_cells_blocks_witness :
  wf_board (board tower_game) /\
  current_type tower_game = Some KO /\
  in_grid (current_x tower_game + 1) (current_y tower_game + 0) /\
  exists s' : Tetris,
    lock_piece_cells [(1, 0); (2, 0); (1, 1); (2, 1)] tower_game = Ret (tt, s') /\
    is_valid_position (current_x s') (current_y s') [(1, 0); (2, 0); (1, 1); (2, 1)] s'
      = Ret (false, s').
Proof.
  assert (Hgrid : in_grid (current_x tower_game + 1) (current_y tower_game + 0))
    by (unfold in_grid, BOARD_WIDTH, BOARD_HEIGHT; cbn; lia).
  split; [exact wf_board_tower |]. split; [reflexivity |]. split; [exact Hgrid |].
  apply (lock_piece_cells_blocks tower_game [(1, 0); (2, 0); (1, 1); (2, 1)] KO (1, 0)
           wf_board_tower eq_refl).
  - by left.
  - exact Hgrid.
Defined.

(** A second line clear on [rows57_game] does nothing. *)
Lemma clear_lines_idempotent_witness :
  wf_board (board rows57_game) /\
  exists s' : Tetris,
    clear_lines rows57_game = Ret (VNone, s') /\
    clear_lines s' = Ret (VNone, s').
Proof.
  split; [exact wf_board_rows57 |].
  destruct (clear_lines_idempotent rows57_game wf_board_rows57)
    as (s' & H1 & _ & H2 & _).
  exists s'. split; [exact H1 | exact H2].
Defined.

(** The line clear on [rows57_game] removes 20 occupied cells. *)
Lemma clear_lines_occupied_witness :
  wf_board (board rows57_game) /\
  exists s' : Tetris,
    clear_lines rows57_game = Ret (VNone, s') /\
    (occupied (board s') + 20)%nat = occupied (board rows57_game).
Proof.
  split; [exact wf_board_rows57 |].
  destruct (clear_lines_occupied rows57_game wf_board_rows57) as (s' & H1 & H2 & _).
  exists s'. split; [exact H1 |]. exact H2.
Defined.

(** A move to the right in [new_game_O]. *)
Lemma move_keeps_consistent_witness :
  consistent new_game_O /\
  exists (ok : bool) (s' : Tetris),
    move 1 0 new_game_O = Ret (ok, s') /\ consistent s'.
Proof.
  split; [exact consistent_new_game_O |].
  destruct (move_keeps_consistent new_game_O 1 0 consistent_new_game_O)
    as (ok & s' & H1 & H2 & _).
  exists ok, s'. split; [exact H1 | exact H2].
Defined.

(** The first, kicked, rotation of [kick_start]. *)
Lemma rotate_keeps_consistent_witness :
  consistent kick_start /\
  exists (ok : bool) (s' : Tetris),
    rotate kick_start = Ret (ok, s') /\ consistent s'.
Proof.
  split; [exact consistent_kick_start |].
  destruct (rotate_keeps_consistent kick_start consistent_kick_start)
    as (ok & s' & H1 & H2 & _).
  exists ok, s'. split; [exact H1 | exact H2].
Defined.

Lemma rotate_kick_bound_witness :
  wf_board (board kick_start) /\ current_type kick_start = Some KT /\
  exists (ok : bool) (s' : Tetris),
    rotate kick_start = Ret (ok, s') /\
    current_x kick_start - 2 <= current_x s' <= current_x kick_start + 2.
Proof.
  split; [exact wf_board_kick |]. split; [reflexivity |].
  destruct (rotate_kick_bound kick_start KT wf_board_kick eq_refl)
    as (ok & s' & H1 & H2 & _).
  exists ok, s'. split; [exact H1 | exact H2].
Defined.

(** Right and back in [new_game_O]. *)
Lemma move_undo_witness :
  wf_board (board new_game_O) /\
  is_valid_position (current_x new_game_O) (current_y new_game_O)
    [(1, 0); (2, 0); (1, 1); (2, 1)] new_game_O = Ret (true, new_game_O) /\
  exists s1 : Tetris,
    move 1 0 new_game_O = Ret (true, s1) /\
    move (- (1)) (- 0) s1 = Ret (true, new_game_O).
Proof.
  assert (Hvalid : is_valid_position (current_x new_game_O) (current_y new_game_O)
                     [(1, 0); (2, 0); (1, 1); (2, 1)] new_game_O
                   = Ret (true, new_game_O))
    by (vm_compute; reflexivity).
  split; [exact wf_board_empty |]. split; [exact Hvalid |].
  destruct (move_undo new_game_O _ 1 0 wf_board_empty eq_refl Hvalid)
    as (ok & s1 & Hmove & Hback & _).
  assert (Hok : ok = true).
  { pose proof Hmove as Hrun. vm_compute in Hrun. by injection Hrun as <- _. }
  subst ok. exists s1. split; [exact Hmove |]. by apply Hback.
Defined.

(** The first piece of [new_game_O] drops to its ghost. *)
Lemma hard_drop_loop_reaches_ghost_witness :
  wf_board (board new_game_O) /\
  catalog_layout [(1, 0); (2, 0); (1, 1); (2, 1)] /\
  exists gy : Z,
    get_ghost_y 20 new_game_O = Ret (gy, new_game_O) /\
    hard_drop_loop 20 0 new_game_O
      = Ret (gy - current_y new_game_O, set_current_y gy new_game_O).
Proof.
  assert (Hcat : catalog_layout [(1, 0); (2, 0); (1, 1); (2, 1)])
    by (exists KO, 0%nat; reflexivity).
  split; [exact wf_board_empty |]. split; [exact Hcat |].
  destruct (hard_drop_loop_reaches_ghost new_game_O _ wf_board_empty eq_refl Hcat)
    as (gy & _ & Hrun).
  destruct (Hrun 20%nat ltac:(vm_compute; reflexivity)) as (H1 & H2 & _).
  exists gy. split; [exact H1 | exact H2].
Defined.

(** A draw from the bag of [new_game_O]. *)
Lemma get_next_piece_type_distinct_witness :
  NoDup (bag new_game_O) /\ (length (bag new_game_O) <= 6)%nat /\
  exists (k : Kind) (s' : Tetris),
    get_next_piece_type forced_shuffle new_game_O = Ret (k, s') /\
    k ∉ bag s'.
Proof.
  assert (Hnd : NoDup (bag new_game_O))
    by (apply (bool_decide_unpack _); vm_compute; reflexivity).
  assert (Hlen : (length (bag new_game_O) <= 6)%nat) by (cbn; lia).
  split; [exact Hnd |]. split; [exact Hlen |].
  destruct (get_next_piece_type_distinct forced_shuffle forced_shuffle_perm
              new_game_O Hnd Hlen) as (k & s' & H1 & _ & _ & H2 & _).
  exists k, s'. split; [exact H1 | exact H2].
Defined.

(** Locking the O piece of [tower_game]. *)
Lemma lock_piece_keeps_consistent_witness :
  consistent tower_game /\
  exists s' : Tetris,
    lock_piece forced_shuffle tower_game = Ret (VNone, s') /\ consistent s'.
Proof.
  split; [exact consistent_tower_game |].
  destruct (lock_piece_keeps_consistent forced_shuffle forced_shuffle_perm
              tower_game consistent_tower_game) as (n & s' & H1 & H2 & _).
  exists s'. split; [exact H1 | exact H2].
Defined.

(** The hard drop of the first piece of [new_game_O]. *)
Lemma hard_drop_keeps_consistent_witness :
  consistent new_game_O /\
  exists s' : Tetris,
    hard_drop forced_shuffle 20 new_game_O = Ret (VNone, s') /\
    consistent s' /\ score new_game_O <= score s'.
Proof.
  split; [exact consistent_new_game_O |].
  destruct (hard_drop_keeps_consistent forced_shuffle forced_shuffle_perm
              new_game_O 20 consistent_new_game_O ltac:(vm_compute; reflexivity))
    as (d & n & s' & _ & _ & _ & H1 & H2 & _ & _ & _ & _ & H3 & _).
  exists s'. split; [exact H1 |]. split; [exact H2 | exact H3].
Defined.

(** A new game with the forced bag order. *)
Lemma init_consistent_witness :
  exists s : Tetris,
    init forced_shuffle 0 = Ret (VNone, s) /\ consistent s /\ length (bag s) = 4%nat.
Proof.
  destruct (init_consistent forced_shuffle forced_shuffle_perm 0)
    as (b & k3 & k2 & k1 & s & _ & H1 & H2 & H3).
  exists s. split; [exact H1 |]. split; [exact H2 |].
  by destruct H3 as (_ & _ & _ & _ & _ & _ & _ & _ & _ & ? & _).
Defined.

(** A pass of the loop with the space key in [new_game_O]. *)
Lemma main_iteration_keeps_consistent_witness :
  consistent new_game_O /\
  exists s' : Tetris,
    main_iteration curses_KEY_LEFT curses_KEY_RIGHT curses_KEY_DOWN curses_KEY_UP
      forced_shuffle 20 ord_space false new_game_O = Ret (false, s') /\
    consistent s'.
Proof.
  split; [exact consistent_new_game_O |].
  destruct (main_iteration_keeps_consistent
              curses_KEY_LEFT curses_KEY_RIGHT curses_KEY_DOWN curses_KEY_UP
              forced_shuffle forced_shuffle_perm new_game_O 20 ord_space false
              consistent_new_game_O ltac:(vm_compute; reflexivity))
    as (quit & s' & Hrun & Hadv & Hquit & _).
  exists s'. split; [| exact (proj1 Hadv)].
  rewrite Hrun. rewrite Hquit. reflexivity.
Defined.

(** The left arrow in a paused game. *)
Lemma main_iteration_paused_witness :
  paused (set_paused true new_game_O) = true /\
  key_in curses_KEY_LEFT [ord_p; ord_P] = false /\
  main_iteration curses_KEY_LEFT curses_KEY_RIGHT curses_KEY_DOWN curses_KEY_UP
    forced_shuffle 20 curses_KEY_LEFT true (set_paused true new_game_O)
    = Ret (false, set_paused true new_game_O).
Proof.
  split; [reflexivity |]. split; [vm_compute; reflexivity |].
  exact (main_iteration_paused
           curses_KEY_LEFT curses_KEY_RIGHT curses_KEY_DOWN curses_KEY_UP
           forced_shuffle (set_paused true new_game_O) 20 curses_KEY_LEFT true
           eq_refl eq_refl).
Defined.

(** The down arrow in [new_game_O]. *)
Lemma main_iteration_soft_drop_witness :
  wf_board (board new_game_O) /\ paused new_game_O = false /\
  key_in curses_KEY_DOWN [curses_KEY_DOWN; ord_s; ord_S] = true /\
  main_iteration curses_KEY_LEFT curses_KEY_RIGHT curses_KEY_DOWN curses_KEY_UP
    forced_shuffle 20 curses_KEY_DOWN false new_game_O
    = Ret (false, set_score 1 (set_current_y 1 new_game_O)).
Proof.
  split; [exact wf_board_empty |]. split; [reflexivity |].
  split; [vm_compute; reflexivity |].
  destruct (main_iteration_soft_drop
              curses_KEY_LEFT curses_KEY_RIGHT curses_KEY_DOWN curses_KEY_UP
              forced_shuffle new_game_O [(1, 0); (2, 0); (1, 1); (2, 1)] 20
              curses_KEY_DOWN wf_board_empty eq_refl eq_refl eq_refl eq_refl
              eq_refl eq_refl eq_refl) as (ok & Hvalid & Hrun).
  rewrite Hrun.
  assert (Hok : ok = true).
  { pose proof Hvalid as Hv. vm_compute in Hv. by injection Hv as <-. }
  by rewrite Hok.
Defined.

(** A new game played with the space key, the left arrow when the clock
    is due, then [q]. *)
Lemma main_loop_never_raises_witness :
  (23 < 24)%nat /\
  exists (s0 : Tetris) (done : bool) (s' : Tetris),
    init forced_shuffle 0 = Ret (VNone, s0) /\
    main_loop curses_KEY_LEFT curses_KEY_RIGHT curses_KEY_DOWN curses_KEY_UP
      forced_shuffle 24
      [(ord_space, false); (curses_KEY_LEFT, true); (ord_q, false)] s0
      = Ret (done, s') /\
    consistent s' /\ -4 <= current_y s'.
Proof.
  split; [lia |].
  apply (main_loop_never_raises
           curses_KEY_LEFT curses_KEY_RIGHT curses_KEY_DOWN curses_KEY_UP
           forced_shuffle forced_shuffle_perm 0 24); lia.
Defined.

(** Level 3 against level 7. *)
Lemma get_drop_speed_monotone_witness :
  1 <= level (set_level 3 new_game_O) /\
  level (set_level 3 new_game_O) <= level (set_level 7 new_game_O) /\
  get_drop_speed (set_level 3 new_game_O) = Ret (0.65%Q, set_level 3 new_game_O) /\
  get_drop_speed (set_level 7 new_game_O) = Ret (0.25%Q, set_level 7 new_game_O).
Proof.
  assert (H1 : 1 <= level (set_level 3 new_game_O)) by (cbn; lia).
  assert (H2 : level (set_level 3 new_game_O) <= level (set_level 7 new_game_O))
    by (cbn; lia).
  split; [exact H1 |]. split; [exact H2 |].
  destruct (get_drop_speed_monotone _ _ H1 H2) as (v & v' & Hv & Hv' & _).
  split; reflexivity.
Defined.

(** Level 0. *)
Lemma get_drop_speed_default_witness :
  level (set_level 0 new_game_O) < 1 /\
  get_drop_speed (set_level 0 new_game_O) = Ret (0.1%Q, set_level 0 new_game_O).
Proof.
  assert (H : level (set_level 0 new_game_O) < 1) by (cbn; lia).
  split; [exact H | exact (get_drop_speed_default _ H)].
Defined.
